(** * Quantum AI vs Classical AI: the animation driver of [app.py]

    A shallow embedding of the frame loop (lines 78-123) and of the final
    metrics (lines 126-130) of [src/app.py], with the helper functions the
    loop calls (lines 14-42).

    - Python [int] is [Z]; Python [float] (and [numpy.float64]) is Rocq's
      primitive binary64 [float], whose [*] and [/] are the IEEE 754
      operations CPython and NumPy use.  A [str] is a [string] of code
      points below 256.
    - The script mutates three lists, a flag and the page; these form the
      [state] record that a state-and-exception monad threads through the
      loop.  A raised exception stops the script and keeps the state reached.
    - Streamlit widgets, matplotlib, RDKit, the sound player, the wall clock
      and NumPy's transcendental functions are not part of the repository:
      what the loop sends to the page is recorded as a list of [event]s, and
      what it reads from them is a parameter of the [Driver] section.
    - The classical curve (line 90) uses IEEE operations only and is
      modelled bit for bit.  The quantum curve (line 91) takes NumPy's
      [log2] and [power] as parameters ([np_quantum_power]); where its
      values matter the formula is evaluated over the reals
      ([exact_quantum_power]). *)

From Stdlib Require Import ZArith List Bool Lia String Ascii Floats Uint63.
From Stdlib Require Import Reals Lra.
Import ListNotations.

Local Open Scope Z_scope.

(** ** Exceptions and results *)

(** The exceptions the modelled lines can raise. *)
Inductive exn : Type :=
| ZeroDivisionError   (* [a / 0] *)
| IndexError          (* [l[-1]] on an empty list *)
| ValueError          (* [int(nan)] *)
| OverflowError       (* [int(inf)] *)
| ArgumentError.      (* RDKit: [DrawMolecule(None)] *)

Inductive result (A : Type) : Type :=
| Ok (a : A)
| Raise (e : exn).
Arguments Ok {A} a.
Arguments Raise {A} e.

(** ** Python numbers *)

Module Py.

(** [float(a)] for an [int]; exact for [|a| < 2^53], rounded to nearest
    below [2^63], which is far above every value the sliders produce. *)
Definition float_of_Z (a : Z) : float :=
  match a with
  | Zneg p => (- of_uint63 (Uint63.of_Z (Zpos p)))%float
  | _ => of_uint63 (Uint63.of_Z a)
  end.

(** [int(x)] for a [float]: truncation toward zero.  [frshiftexp] writes
    [|x|] as [m * 2^(e - shift)] with [1/2 <= m < 1], [normfr_mantissa m]
    is the integer [m * 2^53], and [Z.shiftl] by a negative amount is a
    right shift, so [v] is the integer part of [|x|]. *)
Definition int (x : float) : result Z :=
  if is_nan x then Raise ValueError
  else if is_infinity x then Raise OverflowError
  else
    let (m, e) := frshiftexp (abs x) in
    let v := Z.shiftl (Uint63.to_Z (normfr_mantissa m))
                      (Uint63.to_Z e - shift - prec) in
    Ok (if get_sign x then - v else v).

(** [a / b] on two [int]s (true division): the correctly rounded quotient,
    which for [|a|] and [|b|] below [2^53] is the IEEE quotient of the two
    conversions. *)
Definition truediv (a b : Z) : result float :=
  if b =? 0 then Raise ZeroDivisionError
  else Ok (float_of_Z a / float_of_Z b)%float.

(** [l[-1]]. *)
Definition last {A : Type} (l : list A) : result A :=
  match rev l with
  | [] => Raise IndexError
  | x :: _ => Ok x
  end.

(** The code points below 256 that [str.isspace] accepts. *)
Definition isspace (c : ascii) : bool :=
  let n := N_of_ascii c in
  ((9 <=? n) && (n <=? 13) || (28 <=? n) && (n <=? 32)
   || (n =? 133) || (n =? 160))%N.

Fixpoint lstrip (s : string) : string :=
  match s with
  | String c s' => if isspace c then lstrip s' else s
  | EmptyString => EmptyString
  end.

Fixpoint rstrip (s : string) : string :=
  match s with
  | String c s' =>
      match rstrip s' with
      | EmptyString => if isspace c then EmptyString else String c EmptyString
      | t => String c t
      end
  | EmptyString => EmptyString
  end.

(** [s.strip()]. *)
Definition strip (s : string) : string := rstrip (lstrip s).

(** [d.get(k, default)] on a dict given by its items. *)
Fixpoint dict_get (d : list (string * string)) (k default : string) : string :=
  match d with
  | [] => default
  | (k', v) :: d' => if String.eqb k' k then v else dict_get d' k default
  end.

End Py.

(** ** Run configuration, series state and page output *)

(** The values of the five input widgets (lines 67-71). *)
Record config : Type := {
  duration : Z;
  max_candidates : Z;
  smiles : string;
  show_molecule : bool;
  log_scale : bool
}.

(** The ranges of the two sliders: [st.slider(_, 5, 30, 10)] and
    [st.slider(_, 100, 10000, 3000)]. *)
Definition valid_config (cfg : config) : Prop :=
  5 <= duration cfg <= 30 /\ 100 <= max_candidates cfg <= 10000.

(** What a frame sends to the page, to the sound player and to the
    scheduler. *)
Inductive event : Type :=
| Pyplot (ts : list float) (cs qs : list Z) (logy : bool) (ymax : Z)
| PlaySound (path : string)
| Markdown (html : string)
| Image (png : string) (caption : string)
| Sleep.

(** The variables the loop mutates (lines 79-80) and the output so far. *)
Record state : Type := {
  times : list float;
  classical : list Z;
  quantum : list Z;
  quantum_triggered : bool;
  effects : list event
}.

Definition init : state :=
  {| times := []; classical := []; quantum := [];
     quantum_triggered := false; effects := [] |}.

(** The values derived after the loop (lines 126-130). *)
Record metrics : Type := {
  q_total : Z;
  c_total : Z;
  speedup : float;
  time_per_molecule_q : float;
  time_per_molecule_c : float
}.

(** ** The script monad: state, and exceptions that keep the state *)

Definition M (A : Type) : Type := state -> result A * state.

Definition ret {A : Type} (a : A) : M A := fun s => (Ok a, s).

Definition bind {A B : Type} (m : M A) (k : A -> M B) : M B :=
  fun s =>
    match m s with
    | (Ok a, s') => k a s'
    | (Raise e, s') => (Raise e, s')
    end.

Notation "x <- m ;; k" := (bind m (fun x => k))
  (at level 61, m at next level, right associativity).
Notation "m ;; k" := (bind m (fun _ => k))
  (at level 61, right associativity).

Definition lift {A : Type} (r : result A) : M A := fun s => (r, s).
Definition get : M state := fun s => (Ok s, s).
Definition modify (f : state -> state) : M unit := fun s => (Ok tt, f s).

Definition append_times (t : float) : M unit :=
  modify (fun s => {| times := times s ++ [t]; classical := classical s;
                      quantum := quantum s;
                      quantum_triggered := quantum_triggered s;
                      effects := effects s |}).

Definition append_classical (c : Z) : M unit :=
  modify (fun s => {| times := times s; classical := classical s ++ [c];
                      quantum := quantum s;
                      quantum_triggered := quantum_triggered s;
                      effects := effects s |}).

Definition append_quantum (q : Z) : M unit :=
  modify (fun s => {| times := times s; classical := classical s;
                      quantum := quantum s ++ [q];
                      quantum_triggered := quantum_triggered s;
                      effects := effects s |}).

Definition set_quantum_triggered (b : bool) : M unit :=
  modify (fun s => {| times := times s; classical := classical s;
                      quantum := quantum s; quantum_triggered := b;
                      effects := effects s |}).

Definition emit (e : event) : M unit :=
  modify (fun s => {| times := times s; classical := classical s;
                      quantum := quantum s;
                      quantum_triggered := quantum_triggered s;
                      effects := effects s ++ [e] |}).

(** [for i in range(n): body(i)], started at [i]. *)
Fixpoint for_range (i : Z) (n : nat) (body : Z -> M unit) : M unit :=
  match n with
  | O => ret tt
  | S n' => body i ;; for_range (i + 1) n' body
  end.

(** Sequencing of computations that only compute or raise. *)
Definition and_then {A B : Type} (r : result A) (k : A -> result B) : result B :=
  match r with
  | Ok a => k a
  | Raise e => Raise e
  end.

Notation "x <~ r ;; k" := (and_then r (fun x => k))
  (at level 61, r at next level, right associativity).

(** ** Helper functions of the script *)

(** [play_sound] (lines 14-26) starts a daemon thread that plays the file
    and swallows every failure; the loop never waits for it.  Only the
    request is recorded. *)
Definition play_sound (path : string) : M unit := emit (PlaySound path).

(** The dict of [get_scientific_name] (lines 39-41). *)
Definition known : list (string * string) :=
  [("CC(=O)OC1=CC=CC=C1C(=O)O", "Acetylsalicylic acid (Aspirin)")]%string.

(** [get_scientific_name] (lines 38-42). *)
Definition get_scientific_name (smiles : string) : string :=
  Py.dict_get known (Py.strip smiles) "Unknown Compound".

(** The two formulas of the specification, over the reals: for
    [0 <= i], [0 <= M] and [0 < F], [floor (i * (M / F))] is the quotient
    [i * M / F] of [Z]. *)
Definition spec_classical (i M F : Z) : Z := i * M / F.

(** ** The animation driver *)

Section Driver.

(** [time.time()]: the [k]-th reading of the wall clock. *)
Variable wall : nat -> float.

(** [int(2 ** (i * np.log2(max_candidates) / frames))], as a function of
    [i], [max_candidates] and [frames].  NumPy's [log2] and [power] are
    not part of the repository; [np_quantum_power] and
    [exact_quantum_power] below are the two instances used. *)
Variable quantum_power : Z -> Z -> Z -> result Z.

(** RDKit: molecules, [Chem.MolFromSmiles] ([None] when the string does
    not parse) and the PNG bytes the drawer produces for a molecule. *)
Variable Mol : Type.
Variable MolFromSmiles : string -> option Mol.
Variable GetDrawingText : Mol -> string.

(** Python's [round(x, ndigits)]. *)
Variable py_round : float -> Z -> float.

Variable cfg : config.

(** [get_molecule_img_dark] (lines 29-35): [DrawMolecule] raises on the
    [None] that [MolFromSmiles] returns for an invalid string, and nothing
    catches it. *)
Definition get_molecule_img_dark (smiles : string) : result string :=
  match MolFromSmiles smiles with
  | Some mol => Ok (GetDrawingText mol)
  | None => Raise ArgumentError
  end.

(** Line 78. *)
Definition frames : Z := duration cfg * 5.

(** Line 90: [int(i * (max_candidates / frames))]. *)
Definition classical_count (i : Z) : result Z :=
  r <~ Py.truediv (max_candidates cfg) frames ;;
  Py.int (Py.float_of_Z i * r)%float.

(** Line 91: [min(int(2 ** (...)), max_candidates)]. *)
Definition quantum_count (i : Z) : result Z :=
  p <~ quantum_power i (max_candidates cfg) frames ;;
  Ok (Z.min p (max_candidates cfg)).

(** Line 87: [i * (duration / frames)]. *)
Definition time_of_frame (i : Z) : result float :=
  r <~ Py.truediv (duration cfg) frames ;;
  Ok (Py.float_of_Z i * r)%float.

(** Lines 116-121: the breakthrough, entered when the flag is unset and
    [q > c * 3].  (The emoji that opens the heading is a code point above
    255 and is left out of the string.) *)
Definition breakthrough : M unit :=
  play_sound "uploaded-sound.mp3" ;;
  emit (Markdown "<h3 style='color:red;'>Quantum AI Breakthrough!</h3>") ;;
  (if show_molecule cfg then
     png <- lift (get_molecule_img_dark (smiles cfg)) ;;
     emit (Image png ("Scientific Name: " ++ get_scientific_name (smiles cfg)))
   else ret tt) ;;
  set_quantum_triggered true.

(** The body of the loop (lines 86-123) for frame [i]. *)
Definition frame (i : Z) : M unit :=
  let elapsed := (wall (S (Z.to_nat i)) - wall O)%float in
  t <- lift (time_of_frame i) ;;
  append_times t ;;
  c <- lift (classical_count i) ;;
  q <- lift (quantum_count i) ;;
  append_classical c ;;
  append_quantum q ;;
  s <- get ;;
  emit (Pyplot (times s) (classical s) (quantum s)
               (log_scale cfg) (max_candidates cfg)) ;;
  (if negb (quantum_triggered s) && (q >? c * 3)
   then breakthrough else ret tt) ;;
  emit Sleep.

(** The first [n] frames of the loop. *)
Definition run_frames (n : nat) : M unit := for_range 0 n frame.

(** Lines 85-123: [for i in range(frames)]. *)
Definition run : M unit := run_frames (Z.to_nat frames).

(** Lines 126-130. *)
Definition final_metrics : M metrics :=
  s <- get ;;
  q_total <- lift (Py.last (quantum s)) ;;
  c_total <- lift (Py.last (classical s)) ;;
  x <- lift (Py.truediv q_total c_total) ;;
  y <- lift (Py.truediv (duration cfg) q_total) ;;
  z <- lift (Py.truediv (duration cfg) c_total) ;;
  ret {| q_total := q_total; c_total := c_total;
         speedup := py_round x 2;
         time_per_molecule_q := py_round y 5;
         time_per_molecule_c := py_round z 5 |}.

(** The script from a fresh page: the loop, then the metrics. *)
Definition main : result metrics * state := (run ;; final_metrics) init.

End Driver.

Arguments get_molecule_img_dark {Mol} MolFromSmiles GetDrawingText smiles.
Arguments breakthrough {Mol} MolFromSmiles GetDrawingText cfg.
Arguments frame wall quantum_power {Mol} MolFromSmiles GetDrawingText cfg i.
Arguments run_frames wall quantum_power {Mol} MolFromSmiles GetDrawingText cfg n.
Arguments run wall quantum_power {Mol} MolFromSmiles GetDrawingText cfg.
Arguments main wall quantum_power {Mol} MolFromSmiles GetDrawingText
  py_round cfg.

(** ** The quantum curve *)

(** Line 91 as NumPy evaluates it, for a given [numpy.log2] and a given
    [power]: [i] and [frames] are converted to binary64, the product and
    the quotient are IEEE operations, and [int] truncates. *)
Definition np_quantum_power (np_log2 : float -> float)
    (np_power : float -> float -> float) (i M F : Z) : result Z :=
  Py.int (np_power (Py.float_of_Z 2)
            (Py.float_of_Z i * np_log2 (Py.float_of_Z M) / Py.float_of_Z F)%float).

(** The largest [r] with [r ^ k <= n], found bit by bit from the top. *)
Fixpoint root_bits (k n : Z) (b : nat) (r : Z) : Z :=
  match b with
  | O => r
  | S b' =>
      let t := r + 2 ^ Z.of_nat b' in
      root_bits k n b' (if t ^ k <=? n then t else r)
  end.

(** [floor (n ^ (1 / k))] for [1 <= k] and [0 <= n]. *)
Definition nth_root (k n : Z) : Z :=
  root_bits k n (Z.to_nat (Z.log2 n / k + 1)) 0.

(** Line 91 over the reals: [2 ** (i * log2 M / F)] is the real number
    [M ^ (i / F)], whose integer part is the [F]-th root of [M ^ i]
    rounded down.  Binary64 evaluation yields this value except where the
    rounding error of [log2], of the product, of the quotient and of
    [power] carries the result across an integer. *)
Definition exact_quantum_power (i M F : Z) : result Z :=
  Ok (nth_root F (M ^ i)).

(** The quantum formula of the specification, over the reals. *)
Definition spec_quantum (i M F : Z) : Z := Z.min (nth_root F (M ^ i)) M.

(** ** Instances of the parameters *)

(** A binary64 implementation of [log2] and [power] by argument reduction
    and power series, accurate to a few units in the last place.  It
    stands for NumPy's functions where a concrete run is evaluated. *)
Module Libm.

Definition ln2 : float := 0x1.62e42fefa39efp-1%float.
Definition sqrt_half : float := 0x1.6a09e667f3bcdp-1%float.

(** [1 + z2/3 + z2^2/5 + ...], [n] terms from the term of index [k]. *)
Fixpoint atanh_terms (n : nat) (k : Z) (z2 : float) : float :=
  match n with
  | O => 0%float
  | S n' =>
      (1 / Py.float_of_Z (2 * k + 1) + z2 * atanh_terms n' (k + 1) z2)%float
  end.

(** [ln m] for [m] near 1: [2 * atanh ((m - 1) / (m + 1))]. *)
Definition ln_near_one (m : float) : float :=
  let z := ((m - 1) / (m + 1))%float in
  (2 * z * atanh_terms 16 0 (z * z))%float.

Definition log2 (x : float) : float :=
  if is_nan x || PrimFloat.ltb x 0 then nan
  else if PrimFloat.is_zero x then neg_infinity
  else if is_infinity x then infinity
  else
    let (m, e) := frshiftexp x in
    let e' := Uint63.to_Z e - shift in
    if PrimFloat.ltb m sqrt_half
    then (Py.float_of_Z (e' - 1) + ln_near_one (2 * m) / ln2)%float
    else (Py.float_of_Z e' + ln_near_one m / ln2)%float.

(** [1 + x/k * (1 + x/(k+1) * (...))], [n] factors. *)
Fixpoint exp_terms (n : nat) (k : Z) (x : float) : float :=
  match n with
  | O => 1%float
  | S n' => (1 + x / Py.float_of_Z k * exp_terms n' (k + 1) x)%float
  end.

(** [2 ** y] for a finite [y] of moderate size. *)
Definition exp2 (y : float) : float :=
  match Py.int y with
  | Ok n =>
      let n := if PrimFloat.ltb y (Py.float_of_Z n) then n - 1 else n in
      let f := (y - Py.float_of_Z n)%float in
      ldshiftexp (exp_terms 24 1 (f * ln2)) (Uint63.of_Z (n + shift))
  | Raise _ => y
  end.

Definition power (b y : float) : float :=
  if PrimFloat.is_zero y then 1%float else exp2 (y * log2 b).

End Libm.

(** A stand-in for RDKit: a string parses when it is not empty and consists
    of characters of the SMILES alphabet; the molecule is the string and the
    drawing is a tagged copy of it. *)
Module Toolkit.

Definition smiles_char (c : ascii) : bool :=
  let n := N_of_ascii c in
  ((65 <=? n) && (n <=? 90) || (97 <=? n) && (n <=? 122)
   || (48 <=? n) && (n <=? 57)
   || existsb (N.eqb n) [35; 37; 40; 41; 42; 43; 45; 46; 47; 58; 61; 64;
                          91; 92; 93])%N.

Fixpoint all_smiles_chars (s : string) : bool :=
  match s with
  | EmptyString => true
  | String c s' => smiles_char c && all_smiles_chars s'
  end.

Definition MolFromSmiles (s : string) : option string :=
  match s with
  | EmptyString => None
  | _ => if all_smiles_chars s then Some s else None
  end.

Definition GetDrawingText (mol : string) : string := "PNG " ++ mol.

End Toolkit.

(** A wall clock that advances by one second per reading. *)
Definition ticking_wall (k : nat) : float := Py.float_of_Z (Z.of_nat k).

(** A rounding that leaves its argument unchanged; the claims proved
    below do not depend on the digits the page displays. *)
Definition keep_digits (x : float) (ndigits : Z) : float := x.

Definition aspirin : string := "CC(=O)OC1=CC=CC=C1C(=O)O".

(** The scenario of the specification: 100 candidates in 5 seconds. *)
Definition cfg_100_5 : config :=
  {| duration := 5; max_candidates := 100; smiles := aspirin;
     show_molecule := true; log_scale := false |}.

(** The default values of the sliders: 3000 candidates in 10 seconds. *)
Definition cfg_3000_10 : config :=
  {| duration := 10; max_candidates := 3000; smiles := aspirin;
     show_molecule := true; log_scale := false |}.

(** 205 candidates in 5 seconds. *)
Definition cfg_205_5 : config :=
  {| duration := 5; max_candidates := 205; smiles := aspirin;
     show_molecule := true; log_scale := false |}.

(** A string RDKit does not parse. *)
Definition cfg_bad_smiles : config :=
  {| duration := 5; max_candidates := 100; smiles := "not a molecule";
     show_molecule := true; log_scale := false |}.

(** A run of no frame. *)
Definition cfg_no_frame : config :=
  {| duration := 0; max_candidates := 100; smiles := aspirin;
     show_molecule := true; log_scale := false |}.

(** A run of five frames with one candidate, outside the slider ranges:
    every classical value is 0. *)
Definition cfg_1_1 : config :=
  {| duration := 1; max_candidates := 1; smiles := aspirin;
     show_molecule := false; log_scale := false |}.

(** Line 91 with the binary64 functions of [Libm]. *)
Definition libm_quantum_power : Z -> Z -> Z -> result Z :=
  np_quantum_power Libm.log2 Libm.power.

(** The script on the stand-ins: the outcome of the loop and of the whole
    script for a configuration. *)
Definition sample_run (cfg : config) : result unit * state :=
  run ticking_wall libm_quantum_power Toolkit.MolFromSmiles
    Toolkit.GetDrawingText cfg init.

Definition sample_main (cfg : config) : result metrics * state :=
  main ticking_wall libm_quantum_power Toolkit.MolFromSmiles
    Toolkit.GetDrawingText keep_digits cfg.

(** The same with line 91 evaluated over the reals. *)
Definition exact_run (cfg : config) : result unit * state :=
  run ticking_wall exact_quantum_power Toolkit.MolFromSmiles
    Toolkit.GetDrawingText cfg init.

(** ** A decision procedure for the classical curve on the slider ranges

    The same computation as [classical_count] on primitive integers, run
    over every duration, every candidate count and every frame. *)
Module Check.

Local Open Scope uint63_scope.

(** [Py.int (of_uint63 i * r)] when the product is a finite non-negative
    number below [2^53]. *)
Definition classical63 (i : int) (r : float) : option int :=
  let x := (of_uint63 i * r)%float in
  if is_nan x || is_infinity x || get_sign x then None
  else
    let (m, e) := frshiftexp (abs x) in
    if e <=? 2154 then Some (normfr_mantissa m >> (2154 - e)) else None.

(** Frames [i], [i + 1], ... ([n] of them): the value is defined, at
    least the previous one [p], and equal to [i * M / F] or one less. *)
Fixpoint frames_ok (n : nat) (i M F : int) (r : float) (p : int) : bool :=
  match n with
  | O => true
  | S n' =>
      match classical63 i r with
      | Some c =>
          let e := i * M / F in
          (p <=? c) && (c <=? e) && (e <=? c + 1)
          && frames_ok n' (i + 1) M F r c
      | None => false
      end
  end.

Fixpoint candidates_ok (n : nat) (M F : int) (nF : nat) : bool :=
  match n with
  | O => true
  | S n' =>
      frames_ok nF 0 M F (of_uint63 M / of_uint63 F)%float 0
      && candidates_ok n' (M + 1) F nF
  end.

Fixpoint durations_ok (n : nat) (d : int) : bool :=
  match n with
  | O => true
  | S n' =>
      candidates_ok (Z.to_nat 9901) 100 (d * 5) (Z.to_nat (Uint63.to_Z (d * 5)))
      && durations_ok n' (d + 1)
  end.

(** Both zeros divided by every frame count of the slider range. *)
Fixpoint zero_div_ok (n : nat) (F : int) : bool :=
  match n with
  | O => true
  | S n' =>
      PrimFloat.Leibniz.eqb (zero / of_uint63 F)%float zero
      && PrimFloat.Leibniz.eqb (neg_zero / of_uint63 F)%float neg_zero
      && zero_div_ok n' (F + 1)
  end.

End Check.

(** ** Counting what the breakthrough sends out *)

Definition is_sound (e : event) : bool :=
  match e with PlaySound _ => true | _ => false end.

Definition is_markdown (e : event) : bool :=
  match e with Markdown _ => true | _ => false end.

Definition is_image (e : event) : bool :=
  match e with Image _ _ => true | _ => false end.

Definition count (p : event -> bool) (l : list event) : nat :=
  List.length (filter p l).

(** The breakthrough has been announced as often as the flag says: once
    when it is set, never when it is not (and the molecule, which is
    optional, at most so often). *)
Definition announced_once (s : state) : Prop :=
  let k := if quantum_triggered s then 1%nat else 0%nat in
  count is_sound (effects s) = k /\ count is_markdown (effects s) = k
  /\ (count is_image (effects s) <= k)%nat.

(** No breakthrough effect occurs twice. *)
Definition at_most_once (s : state) : Prop :=
  (count is_sound (effects s) <= 1)%nat
  /\ (count is_markdown (effects s) <= 1)%nat
  /\ (count is_image (effects s) <= 1)%nat.

(** [l[i] <= l[i+1]] for all adjacent indices. *)
Definition non_decreasing (l : list Z) : Prop :=
  forall i : nat, (S i < List.length l)%nat -> nth i l 0 <= nth (S i) l 0.

(** ** The sound worker *)

(** The double quote. *)
Definition dquote : string := String "034"%char EmptyString.

Section Sound.

(** [from playsound import playsound; playsound(path)]: [true] when the
    import and the playback finish, [false] when either raises an
    [Exception]. *)
Variable playsound_ok : string -> bool.

(** [platform.system()]. *)
Variable platform_system : string.

(** [_play] (lines 15-25), the target of the daemon thread of
    [play_sound], for the [path] the thread was started with: the list of
    the commands it passes to [os.system].  [os.system] returns the exit
    status of the command and does not raise. *)
Definition _play (path : string) : list string :=
  if playsound_ok path then []
  else if String.eqb platform_system "Windows"
  then ["start /min wmplayer " ++ dquote ++ path ++ dquote]%string
  else if String.eqb platform_system "Darwin"
  then ["afplay " ++ dquote ++ path ++ dquote]%string
  else ["aplay " ++ dquote ++ path ++ dquote]%string.

End Sound.

(** The commands that the sound threads started so far pass to
    [os.system], one thread per [play_sound] request. *)
Definition os_system_calls (playsound_ok : string -> bool)
    (platform_system : string) (l : list event) : list string :=
  flat_map (fun e =>
              match e with
              | PlaySound path => _play playsound_ok platform_system path
              | _ => []
              end) l.

(** The sound requests so far: the one of the breakthrough when the flag
    is set, none when it is not. *)
Definition sounded (s : state) : Prop :=
  filter is_sound (effects s)
  = if quantum_triggered s then [PlaySound "uploaded-sound.mp3"] else [].

Definition sounded_at_most (s : state) : Prop :=
  filter is_sound (effects s) = []
  \/ filter is_sound (effects s) = [PlaySound "uploaded-sound.mp3"].

(** ** The rest of the script: molecular properties and the info panel *)

(** [x / y] on two [float]s: Python raises on a zero divisor. *)
Definition float_truediv (x y : float) : result float :=
  if PrimFloat.is_zero y then Raise ZeroDivisionError else Ok (x / y)%float.

(** The parts of an f-string: literal text and formatted numbers. *)
Inductive piece : Type :=
| Txt (s : string)
| IntNum (n : Z)
| FloatNum (x : float).

(** What the right sidebar shows. *)
Inductive widget : Type :=
| StMarkdown (text : list piece)
| StMetric (label : string) (value delta : list piece).

(** The inner dicts of [model_scores] (lines 132-135). *)
Definition quantum_scores : list (string * string) :=
  [("Accuracy", "98.4%"); ("F1-Score", "0.97");
   ("Energy Est.", "-72.3 kcal/mol")]%string.

Definition classical_scores : list (string * string) :=
  [("Accuracy", "88.9%"); ("F1-Score", "0.85");
   ("Energy Est.", "-61.8 kcal/mol")]%string.

Definition model_scores : list (string * list (string * string)) :=
  [("Quantum AI", quantum_scores); ("Classical AI", classical_scores)]%string.

Section Panel.

Variable wall : nat -> float.
Variable quantum_power : Z -> Z -> Z -> result Z.
Variable Mol : Type.
Variable MolFromSmiles : string -> option Mol.
Variable GetDrawingText : Mol -> string.

(** RDKit's descriptors of a molecule. *)
Variable MolWt : Mol -> float.
Variable MolLogP : Mol -> float.
Variable CalcNumHBD : Mol -> Z.
Variable CalcNumHBA : Mol -> Z.
Variable CalcNumRotatableBonds : Mol -> Z.

Variable py_round : float -> Z -> float.
Variable cfg : config.

(** [get_molecular_properties] (lines 45-53): the items of the dict, in
    insertion order.  The first descriptor raises on the [None] that
    [MolFromSmiles] returns for an invalid string. *)
Definition get_molecular_properties (smiles : string)
  : result (list (string * piece)) :=
  match MolFromSmiles smiles with
  | None => Raise ArgumentError
  | Some mol =>
      Ok [("Molecular Weight", FloatNum (py_round (MolWt mol) 2));
          ("LogP", FloatNum (py_round (MolLogP mol) 2));
          ("H-Bond Donors", IntNum (CalcNumHBD mol));
          ("H-Bond Acceptors", IntNum (CalcNumHBA mol));
          ("Rotatable Bonds", IntNum (CalcNumRotatableBonds mol))]%string
  end.

(** Lines 145-146, 150-151 and 154-155: one markdown line per item. *)
Definition property_line (kv : string * piece) : widget :=
  StMarkdown [Txt "**"; Txt (fst kv); Txt ":** "; snd kv].

Definition score_line (kv : string * string) : widget :=
  StMarkdown [Txt "- "; Txt (fst kv); Txt ": "; Txt (snd kv)].

(** The right sidebar (lines 138-155): the outcome and the widgets shown.
    The quotient of line 142 is computed after the first three widgets.
    (The emoji of the three headings are left out of the strings;
    [model_scores["Quantum AI"]] and [model_scores["Classical AI"]] are
    the two inner dicts.) *)
Definition right_sidebar (m : metrics) (mol_props : list (string * piece))
  : result unit * list widget :=
  let shown :=
    [StMarkdown [Txt "## AI Performance"];
     StMetric "Quantum AI" [IntNum (q_total m); Txt " molecules"]
       [FloatNum (speedup m); Txt "x faster"];
     StMetric "Classical AI" [IntNum (c_total m); Txt " molecules"]
       [Txt "-"]] in
  match float_truediv (time_per_molecule_c m) (time_per_molecule_q m) with
  | Raise e => (Raise e, shown)
  | Ok r =>
      (Ok tt,
       shown
       ++ [StMetric "Time per Molecule"
             [FloatNum (time_per_molecule_q m); Txt "s (Q)"]
             [FloatNum (py_round r 1); Txt "x faster"]]
       ++ [StMarkdown [Txt "## Molecular Properties"]]
       ++ map property_line mol_props
       ++ [StMarkdown [Txt "## Model Scores"];
           StMarkdown [Txt "**Quantum AI**"]]
       ++ map score_line quantum_scores
       ++ [StMarkdown [Txt "**Classical AI**"]]
       ++ map score_line classical_scores)
  end.

(** Lines 78-155 from a fresh page: the loop and the metrics ([main]), the
    molecular properties (line 131), then the right sidebar. *)
Definition script : result unit * state * list widget :=
  match main wall quantum_power MolFromSmiles GetDrawingText py_round cfg with
  | (Raise e, s) => (Raise e, s, [])
  | (Ok m, s) =>
      match get_molecular_properties (smiles cfg) with
      | Raise e => (Raise e, s, [])
      | Ok mol_props =>
          let (r, shown) := right_sidebar m mol_props in (r, s, shown)
      end
  end.

End Panel.

Arguments get_molecular_properties {Mol} MolFromSmiles MolWt MolLogP
  CalcNumHBD CalcNumHBA CalcNumRotatableBonds py_round smiles.
Arguments script wall quantum_power {Mol} MolFromSmiles GetDrawingText
  MolWt MolLogP CalcNumHBD CalcNumHBA CalcNumRotatableBonds py_round cfg.

(** ** Reading the page output *)

(** White space only. *)
Fixpoint all_isspace (s : string) : bool :=
  match s with
  | EmptyString => true
  | String c s' => Py.isspace c && all_isspace s'
  end.

Definition is_plot (e : event) : bool :=
  match e with Pyplot _ _ _ _ _ => true | _ => false end.

Definition is_sleep (e : event) : bool :=
  match e with Sleep => true | _ => false end.

(** What a run sends out besides the charts and the pauses. *)
Definition is_announcement (e : event) : bool :=
  negb (is_plot e || is_sleep e).

(** The output of the breakthrough (lines 117-120), in the order of the
    source: the sound request, the heading and, when the molecule is to be
    shown and parses, its image under the caption with its name. *)
Definition announcement {Mol : Type} (MolFromSmiles : string -> option Mol)
    (GetDrawingText : Mol -> string) (cfg : config) : list event :=
  [PlaySound "uploaded-sound.mp3";
   Markdown "<h3 style='color:red;'>Quantum AI Breakthrough!</h3>"]
  ++ (if show_molecule cfg then
        match MolFromSmiles (smiles cfg) with
        | Some mol =>
            [Image (GetDrawingText mol)
               ("Scientific Name: " ++ get_scientific_name (smiles cfg))]
        | None => []
        end
      else []).

(** The chart drawn over the series of [s]. *)
Definition plot_of (cfg : config) (s : state) : event :=
  Pyplot (times s) (classical s) (quantum s) (log_scale cfg)
    (max_candidates cfg).

(** The state after the first [k] frames, as far as the chart shows it. *)
Definition first_frames (k : nat) (s : state) : state :=
  {| times := firstn k (times s); classical := firstn k (classical s);
     quantum := firstn k (quantum s);
     quantum_triggered := quantum_triggered s; effects := effects s |}.

(** An event with the scale of the y-axis forgotten. *)
Definition erase_logy (e : event) : event :=
  match e with
  | Pyplot ts cs qs _ ymax => Pyplot ts cs qs false ymax
  | _ => e
  end.

(** The configuration with another descriptor in the text input. *)
Definition with_smiles (cfg : config) (d : string) : config :=
  {| duration := duration cfg; max_candidates := max_candidates cfg;
     smiles := d; show_molecule := show_molecule cfg;
     log_scale := log_scale cfg |}.

(** The configuration with the log-scale check box set to [b]. *)
Definition with_log_scale (cfg : config) (b : bool) : config :=
  {| duration := duration cfg; max_candidates := max_candidates cfg;
     smiles := smiles cfg; show_molecule := show_molecule cfg;
     log_scale := b |}.

(** Two states that differ at most in the scale of the charts drawn. *)
Definition same_but_scale (s s' : state) : Prop :=
  times s = times s' /\ classical s = classical s'
  /\ quantum s = quantum s'
  /\ quantum_triggered s = quantum_triggered s'
  /\ map erase_logy (effects s) = map erase_logy (effects s').

(** The binary64 number nearest to 1/5. *)
Definition fifth : float := 0x1.999999999999ap-3%float.

(** [test k] for every [k] in [a, a + n). *)
Definition for_all_from (a n : nat) (test : nat -> bool) : bool :=
  forallb test (seq a n).

(** On the slider ranges [duration / frames] is [fifth], and the time of
    every frame is below the duration and below the time of the next
    frame. *)
Definition times_ok : bool :=
  for_all_from 5 26 (fun d =>
    let D := Z.of_nat d in
    PrimFloat.Leibniz.eqb (Py.float_of_Z D / Py.float_of_Z (D * 5))%float fifth
    && for_all_from 0 (5 * d) (fun i =>
         PrimFloat.ltb (Py.float_of_Z (Z.of_nat i) * fifth)%float
                       (Py.float_of_Z D)))
  && for_all_from 0 150 (fun i =>
       PrimFloat.ltb (Py.float_of_Z (Z.of_nat i) * fifth)%float
                     (Py.float_of_Z (Z.of_nat (S i)) * fifth)%float).

(** [((F - 1) * 100 - 2 * F) ^ F > F ^ F * 100 ^ (F - 1)], to be checked
    for the frame counts [F = 5 * d] of the slider range. *)
Definition totals_at (F : Z) : bool :=
  F ^ F * 100 ^ (F - 1) <? ((F - 1) * 100 - 2 * F) ^ F.


(** * Properties *)

(** ** Python numbers and strings on examples *)

Example int_trunc_pos : Py.int 0x1.ebfffffffffffp+6%float = Ok 122.
Proof. reflexivity. Qed.

Example int_trunc_neg : Py.int (-2.5)%float = Ok (-2).
Proof. reflexivity. Qed.

Example int_small : Py.int 0.75%float = Ok 0.
Proof. reflexivity. Qed.

Example int_big : Py.int 18014398509481984%float = Ok (2 ^ 54).
Proof. reflexivity. Qed.

Example int_nan : Py.int nan = Raise ValueError.
Proof. reflexivity. Qed.

Example int_inf : Py.int infinity = Raise OverflowError.
Proof. reflexivity. Qed.

Example strip_example : Py.strip " CCO  " = "CCO"%string.
Proof. reflexivity. Qed.

Lemma iter_xO_shiftl (m p : positive) :
  Zpos (Pos.iter xO m p) = Z.shiftl (Zpos m) (Zpos p).
Proof.
  cbn [Z.shiftl]. revert m.
  induction p using Pos.peano_ind; intros m.
  - reflexivity.
  - rewrite !Pos.iter_succ, <- IHp. reflexivity.
Qed.

(** [Py.int] against the IEEE specification of binary64: a finite [x] of
    sign [s], mantissa [m] and exponent [e] has the absolute value
    [m * 2^e], whose integer part is [Z.shiftl m e] (a right shift, hence
    rounded down, when [e] is negative); [int] negates it for a negative
    [x], so it truncates toward zero, and it raises on NaN and on the
    infinities. *)
Lemma int_spec (x : float) :
  Py.int x =
  match Prim2SF x with
  | S754_nan => Raise ValueError
  | S754_infinity _ => Raise OverflowError
  | S754_zero _ => Ok 0
  | S754_finite s m e =>
      Ok (if s then - Z.shiftl (Zpos m) e else Z.shiftl (Zpos m) e)
  end.
Proof.
  unfold Py.int.
  pose proof (frshiftexp_spec (abs x)) as Hfr.
  rewrite abs_spec in Hfr.
  assert (Hinf : is_infinity x
                 = SFeqb (SFabs (Prim2SF x)) (S754_infinity false)).
  { unfold is_infinity. rewrite FloatAxioms.eqb_spec, abs_spec. reflexivity. }
  destruct (Prim2SF x) as [sz|si| |s m e] eqn:E.
  - (* zero *)
    assert (Hnan : is_nan x = false).
    { unfold Prim2SF in E. destruct (is_nan x); [discriminate|reflexivity]. }
    assert (Hinf' : is_infinity x = false) by (rewrite Hinf; reflexivity).
    rewrite Hnan, Hinf'.
    destruct (frshiftexp (abs x)) as [m' e'].
    cbn [SFabs SFfrexp] in Hfr. injection Hfr as Hm' _.
    rewrite normfr_mantissa_spec, Hm'. cbn [SFnormfr_mantissa Z.of_N].
    rewrite Z.shiftl_0_l. destruct (get_sign x); reflexivity.
  - (* infinity *)
    assert (Hnan : is_nan x = false).
    { unfold Prim2SF in E. destruct (is_nan x); [discriminate|reflexivity]. }
    assert (Hinf' : is_infinity x = true) by (rewrite Hinf; reflexivity).
    rewrite Hnan, Hinf'. reflexivity.
  - (* nan *)
    assert (Hnan : is_nan x = true).
    { unfold Prim2SF in E. destruct (is_nan x); [reflexivity|].
      destruct (PrimFloat.is_zero x); [discriminate|].
      destruct (is_infinity x); [discriminate|].
      destruct (Z.frexp x). destruct (shr_fexp _ _ _ _ _).
      destruct (shr_m _); discriminate. }
    rewrite Hnan. reflexivity.
  - (* finite *)
    assert (Hnan : is_nan x = false /\ s = get_sign x).
    { unfold Prim2SF in E. destruct (is_nan x); [discriminate|].
      destruct (PrimFloat.is_zero x); [discriminate|].
      destruct (is_infinity x); [discriminate|].
      destruct (Z.frexp x). destruct (shr_fexp _ _ _ _ _).
      destruct (shr_m _); try discriminate.
      injection E as <- _ _. auto. }
    destruct Hnan as [Hnan Hs].
    assert (Hinf' : is_infinity x = false) by (rewrite Hinf; reflexivity).
    rewrite Hnan, Hinf'.
    destruct (frshiftexp (abs x)) as [m' e'].
    rewrite <- Hs. f_equal.
    assert (Hv : Z.shiftl (Uint63.to_Z (normfr_mantissa m'))
                   (Uint63.to_Z e' - shift - prec)
                 = Z.shiftl (Zpos m) e); [|rewrite Hv; reflexivity].
    cbn [SFabs SFfrexp] in Hfr.
    destruct (Z.leb_spec prec (Zpos (digits2_pos m))) as [Hd|Hd];
      injection Hfr as Hm' He'.
    + rewrite normfr_mantissa_spec, Hm'. cbn [SFnormfr_mantissa].
      rewrite Z.eqb_refl. cbn [Z.of_N].
      f_equal. lia.
    + rewrite normfr_mantissa_spec, Hm'. cbn [SFnormfr_mantissa].
      rewrite Z.eqb_refl. cbn [Z.of_N].
      set (d := prec - Zpos (digits2_pos m)) in *.
      assert (Hdp : Zpos (Z.to_pos d) = d) by (apply Z2Pos.id; lia).
      change (Z.pos_sub 53 (digits2_pos m)) with d in *.
      rewrite iter_xO_shiftl, Hdp, Z.shiftl_shiftl by lia.
      f_equal. lia.
Qed.

(** ** The two curves on the default configuration *)

Example default_frame_25 :
  frames cfg_3000_10 = 50
  /\ classical_count cfg_3000_10 25 = Ok 1500
  /\ quantum_count exact_quantum_power cfg_3000_10 25 = Ok 54
  /\ quantum_count libm_quantum_power cfg_3000_10 25 = Ok 54.
Proof. vm_compute. auto. Qed.

Example default_last_frame :
  classical_count cfg_3000_10 49 = Ok 2940
  /\ quantum_count exact_quantum_power cfg_3000_10 49 = Ok 2556.
Proof. vm_compute. auto. Qed.

(** On 100 candidates in 5 seconds the binary64 quantum series (with
    [Libm]) is the series over the reals. *)
Example quantum_100_5 :
  quantum (snd (sample_run cfg_100_5)) = quantum (snd (exact_run cfg_100_5))
  /\ quantum (snd (exact_run cfg_100_5))
     = [1; 1; 1; 1; 2; 2; 3; 3; 4; 5; 6; 7; 9; 10; 13; 15; 19; 22; 27; 33;
        39; 47; 57; 69; 83].
Proof. vm_compute. auto. Qed.

(** Where the real value is an integer the binary64 value can fall below
    it: [100 ^ (15 / 30)] is 10, and the binary64 power is just under 10. *)
Example quantum_at_exact_power :
  exact_quantum_power 15 100 30 = Ok 10
  /\ libm_quantum_power 15 100 30 = Ok 9.
Proof. vm_compute. auto. Qed.

(** ** Integer roots *)

Lemma root_bits_spec (k n : Z) (b : nat) (r : Z) :
  1 <= k -> 0 <= r -> r ^ k <= n < (r + 2 ^ Z.of_nat b) ^ k ->
  let r' := root_bits k n b r in
  0 <= r' /\ r' ^ k <= n < (r' + 1) ^ k.
Proof.
  revert r. induction b as [|b IH]; intros r Hk Hr Hn.
  - simpl in *. auto.
  - cbn [root_bits].
    assert (Hb : 0 < 2 ^ Z.of_nat b) by (apply Z.pow_pos_nonneg; lia).
    assert (H2 : 2 ^ Z.of_nat (S b) = 2 * 2 ^ Z.of_nat b).
    { rewrite Nat2Z.inj_succ, Z.pow_succ_r by lia. reflexivity. }
    destruct (Z.leb_spec ((r + 2 ^ Z.of_nat b) ^ k) n) as [Hle|Hgt].
    + apply IH; try lia.
      split; [assumption|].
      replace (r + 2 ^ Z.of_nat b + 2 ^ Z.of_nat b)
        with (r + 2 ^ Z.of_nat (S b)) by lia.
      apply Hn.
    + apply IH; try lia.
Qed.

Lemma nth_root_spec (k n : Z) :
  1 <= k -> 0 <= n ->
  0 <= nth_root k n /\ nth_root k n ^ k <= n < (nth_root k n + 1) ^ k.
Proof.
  intros Hk Hn. unfold nth_root.
  apply root_bits_spec; try lia.
  split.
  - rewrite Z.pow_0_l by lia. assumption.
  - assert (Hq : 0 <= Z.log2 n / k)
      by (apply Z.div_pos; [apply Z.log2_nonneg | lia]).
    rewrite Z.add_0_l, Z2Nat.id by lia.
    rewrite <- Z.pow_mul_r by lia.
    destruct (Z.eq_dec n 0) as [->|Hn0].
    + apply Z.pow_pos_nonneg; nia.
    + apply Z.lt_le_trans with (2 ^ Z.succ (Z.log2 n)).
      * apply Z.log2_spec. lia.
      * apply Z.pow_le_mono_r; [lia|].
        pose proof (Z.mul_succ_div_gt (Z.log2 n) k ltac:(lia)). lia.
Qed.

Lemma pow_lt_cancel (k a b : Z) :
  1 <= k -> 0 <= a -> 0 <= b -> a ^ k < b ^ k -> a < b.
Proof.
  intros Hk Ha Hb H.
  destruct (Z.lt_ge_cases a b) as [|Hge]; [assumption|].
  pose proof (Z.pow_le_mono_l b a k ltac:(lia)). lia.
Qed.

Lemma nth_root_unique (k n r : Z) :
  1 <= k -> 0 <= r -> r ^ k <= n < (r + 1) ^ k -> nth_root k n = r.
Proof.
  intros Hk Hr [Hlo Hhi].
  assert (Hn : 0 <= n).
  { apply Z.le_trans with (r ^ k); [apply Z.pow_nonneg; lia | assumption]. }
  destruct (nth_root_spec k n Hk Hn) as (Hr' & Hlo' & Hhi').
  assert (nth_root k n < r + 1) by (apply (pow_lt_cancel k); lia).
  assert (r < nth_root k n + 1) by (apply (pow_lt_cancel k); lia).
  lia.
Qed.

Lemma nth_root_mono (k n n' : Z) :
  1 <= k -> 0 <= n <= n' -> nth_root k n <= nth_root k n'.
Proof.
  intros Hk Hn.
  destruct (nth_root_spec k n Hk ltac:(lia)) as (Hr & Hlo & Hhi).
  destruct (nth_root_spec k n' Hk ltac:(lia)) as (Hr' & Hlo' & Hhi').
  assert (nth_root k n < nth_root k n' + 1)
    by (apply (pow_lt_cancel k); lia).
  lia.
Qed.

Lemma nth_root_one (k : Z) : 1 <= k -> nth_root k 1 = 1.
Proof.
  intros Hk. apply nth_root_unique; try lia.
  rewrite Z.pow_1_l by lia. split; [lia|].
  change (1 + 1) with 2.
  apply Z.lt_le_trans with (2 ^ 1); [reflexivity|].
  apply Z.pow_le_mono_r; lia.
Qed.

(** ** Line 91 over the reals *)

Lemma pow_lt_strict (a b : R) (n : nat) :
  (0 <= a < b)%R -> (a ^ S n < b ^ S n)%R.
Proof.
  intros [Ha Hab]. induction n as [|n IH].
  - simpl. lra.
  - change (a ^ S (S n))%R with (a * a ^ S n)%R.
    change (b ^ S (S n))%R with (b * b ^ S n)%R.
    assert (0 <= a ^ S n)%R by (apply pow_le; assumption).
    apply Rle_lt_trans with (a * b ^ S n)%R.
    + apply Rmult_le_compat_l; lra.
    + apply Rmult_lt_compat_r; lra.
Qed.

Lemma exp_pow_nat (a : R) (n : nat) : (exp a ^ n = exp (INR n * a))%R.
Proof.
  induction n as [|n IH].
  - simpl. rewrite Rmult_0_l, exp_0. reflexivity.
  - rewrite S_INR. change (exp a ^ S n)%R with (exp a * exp a ^ n)%R.
    rewrite IH, <- exp_plus. f_equal. lra.
Qed.

(** The value of [exact_quantum_power] is the integer part of the real
    number [2 ^ (i * log2 M / F)], with [log2 M = ln M / ln 2]. *)
Lemma exact_quantum_power_real (i M F : Z) :
  0 <= i -> 1 <= M -> 1 <= F ->
  exists r,
    exact_quantum_power i M F = Ok r
    /\ (IZR r <= Rpower 2 (IZR i * (ln (IZR M) / ln 2) / IZR F)
        < IZR r + 1)%R.
Proof.
  intros Hi HM HF. exists (nth_root F (M ^ i)). split; [reflexivity|].
  set (x := Rpower 2 (IZR i * (ln (IZR M) / ln 2) / IZR F)).
  assert (Hn : 0 <= M ^ i) by (apply Z.pow_nonneg; lia).
  destruct (nth_root_spec F (M ^ i) HF Hn) as (Hr & Hlo & Hhi).
  set (r := nth_root F (M ^ i)) in *.
  assert (Hln2 : (ln 2 <> 0)%R) by (pose proof ln_lt_2; lra).
  assert (HFR : (0 < IZR F)%R) by (apply IZR_lt; lia).
  assert (HMR : (0 < IZR M)%R) by (apply IZR_lt; lia).
  assert (Hx : x = exp (IZR i * ln (IZR M) / IZR F)).
  { unfold x, Rpower. f_equal. field. split; lra. }
  assert (Hx0 : (0 < x)%R) by (rewrite Hx; apply exp_pos).
  destruct (Z.to_nat F) as [|n] eqn:En; [lia|].
  assert (Hpow : (x ^ S n = IZR (M ^ i))%R).
  { rewrite Hx, exp_pow_nat.
    replace (INR (S n) * (IZR i * ln (IZR M) / IZR F))%R
      with (INR (Z.to_nat i) * ln (IZR M))%R.
    - rewrite <- exp_pow_nat, exp_ln by assumption.
      rewrite pow_IZR, Z2Nat.id by lia. reflexivity.
    - rewrite <- En, !INR_IZR_INZ, !Z2Nat.id by lia. field. lra. }
  assert (HF' : F = Z.of_nat (S n)) by lia.
  rewrite HF' in Hlo, Hhi.
  apply IZR_le in Hlo. apply IZR_lt in Hhi.
  rewrite <- !pow_IZR in Hlo, Hhi. rewrite <- Hpow in Hlo, Hhi.
  assert (HrR : (0 <= IZR r)%R) by (apply IZR_le; lia).
  rewrite plus_IZR in Hhi.
  split.
  - destruct (Rle_lt_dec (IZR r) x) as [|Hlt]; [assumption|].
    pose proof (pow_lt_strict x (IZR r) n ltac:(lra)). lra.
  - destruct (Rlt_le_dec x (IZR r + 1)) as [|Hge]; [assumption|].
    destruct (Rle_lt_or_eq_dec _ _ Hge) as [Hgt|Heq].
    + pose proof (pow_lt_strict (IZR r + 1) x n ltac:(lra)). lra.
    + rewrite Heq in Hhi. lra.
Qed.

(** ** The loop *)

Lemma for_range_app (body : Z -> M unit) (n k : nat) (i : Z) (s : state) :
  for_range i (n + k) body s =
  match for_range i n body s with
  | (Ok _, s1) => for_range (i + Z.of_nat n) k body s1
  | (Raise e, s1) => (Raise e, s1)
  end.
Proof.
  revert i s. induction n as [|n IH]; intros i s.
  - cbn. rewrite Z.add_0_r. reflexivity.
  - cbn [for_range Nat.add]. unfold bind at 1 2.
    destruct (body i s) as [[a|e] s1]; [|reflexivity].
    rewrite IH. replace (i + 1 + Z.of_nat n) with (i + Z.of_nat (S n)) by lia.
    reflexivity.
Qed.

Lemma for_range_one (body : Z -> M unit) (i : Z) (s : state) :
  for_range i 1 body s = body i s.
Proof.
  cbn. unfold bind, ret. destruct (body i s) as [[[]|e] s1]; reflexivity.
Qed.

Lemma count_app (p : event -> bool) (l l' : list event) :
  count p (l ++ l') = (count p l + count p l')%nat.
Proof. unfold count. rewrite filter_app, List.length_app. reflexivity. Qed.

Lemma nth_snoc {A : Type} (l : list A) (x d : A) (n : nat) :
  List.length l = n -> nth n (l ++ [x]) d = x.
Proof. intros <-. apply nth_middle. Qed.

Section DriverFacts.

Variable wall : nat -> float.
Variable quantum_power : Z -> Z -> Z -> result Z.
Variable Mol : Type.
Variable MolFromSmiles : string -> option Mol.
Variable GetDrawingText : Mol -> string.
Variable cfg : config.

Local Abbreviation the_frame :=
  (frame wall quantum_power MolFromSmiles GetDrawingText cfg).
Local Abbreviation the_frames :=
  (run_frames wall quantum_power MolFromSmiles GetDrawingText cfg).

Lemma run_frames_S (n : nat) (s : state) :
  the_frames (S n) s =
  match the_frames n s with
  | (Ok _, s1) => the_frame (Z.of_nat n) s1
  | (Raise e, s1) => (Raise e, s1)
  end.
Proof.
  unfold run_frames. rewrite <- Nat.add_1_r, for_range_app.
  destruct (for_range 0 n the_frame s) as [[a|e] s1]; [|reflexivity].
  rewrite for_range_one. reflexivity.
Qed.

Lemma run_frames_add (n k : nat) (s : state) :
  the_frames (n + k) s =
  match the_frames n s with
  | (Ok _, s1) => for_range (Z.of_nat n) k the_frame s1
  | (Raise e, s1) => (Raise e, s1)
  end.
Proof. unfold run_frames. rewrite for_range_app. reflexivity. Qed.

(** Opens the body of a frame into its cases. *)
Ltac open_frame :=
  unfold frame, breakthrough, play_sound, bind, lift, get, ret, emit,
    append_times, append_classical, append_quantum, set_quantum_triggered,
    modify, get_molecule_img_dark;
  cbn;
  destruct (time_of_frame cfg _) as [?t|?e]; cbn;
  [destruct (classical_count cfg _) as [?c|?e]; cbn;
   [destruct (quantum_count quantum_power cfg _) as [?q|?e]; cbn|]|].

(** A frame that completes has appended one value to each series and has
    set the flag when the quantum value exceeds three times the classical
    one. *)
Lemma frame_Ok (i : Z) (s s' : state) :
  the_frame i s = (Ok tt, s') ->
  exists t c q,
    time_of_frame cfg i = Ok t /\ classical_count cfg i = Ok c
    /\ quantum_count quantum_power cfg i = Ok q
    /\ times s' = times s ++ [t] /\ classical s' = classical s ++ [c]
    /\ quantum s' = quantum s ++ [q]
    /\ quantum_triggered s' = quantum_triggered s || (q >? c * 3).
Proof.
  open_frame; try discriminate.
  destruct (quantum_triggered s) eqn:Hflag; cbn.
  - intros H; injection H as <-. exists t, c, q. cbn. rewrite ?Hflag. auto 10.
  - destruct (q >? c * 3) eqn:Hcmp; cbn.
    + destruct (show_molecule cfg); cbn.
      * destruct (MolFromSmiles (smiles cfg)); cbn; [|discriminate].
        intros H; injection H as <-. exists t, c, q. cbn. auto 10.
      * intros H; injection H as <-. exists t, c, q. cbn. auto 10.
    + intros H; injection H as <-. exists t, c, q. cbn. rewrite ?Hflag. auto 10.
Qed.

(** Whatever a frame does, an announced-once state stays so when the frame
    completes, no effect is doubled when it raises, and a set flag stays
    set. *)
Lemma frame_announced (i : Z) (s s' : state) (r : result unit) :
  announced_once s -> the_frame i s = (r, s') ->
  at_most_once s' /\ (r = Ok tt -> announced_once s')
  /\ (quantum_triggered s = true -> quantum_triggered s' = true).
Proof.
  unfold announced_once, at_most_once, count. intros (Hs & Hm & Hi).
  open_frame;
    try (intros H; injection H as <- <-; cbn;
         destruct (quantum_triggered s); repeat split;
         intros; try discriminate; lia).
  destruct (quantum_triggered s) eqn:Hflag; cbn.
  - intros H; injection H as <- <-; cbn.
    rewrite !filter_app, !List.length_app. cbn.
    repeat split; intros; lia.
  - destruct (q >? c * 3); cbn.
    + destruct (show_molecule cfg); cbn.
      * destruct (MolFromSmiles (smiles cfg)); cbn;
          intros H; injection H as <- <-; cbn;
          rewrite !filter_app, !List.length_app; cbn;
          repeat split; intros; try discriminate; lia.
      * intros H; injection H as <- <-; cbn.
        rewrite !filter_app, !List.length_app. cbn.
        repeat split; intros; try discriminate; lia.
    + intros H; injection H as <- <-; cbn.
      rewrite !filter_app, !List.length_app, ?Hflag. cbn.
      repeat split; intros; try discriminate; lia.
Qed.

Lemma announced_once_at_most (s : state) : announced_once s -> at_most_once s.
Proof.
  unfold announced_once, at_most_once.
  destruct (quantum_triggered s); intros (-> & -> & H); lia.
Qed.

Lemma loop_announced (n : nat) (i : Z) (s s' : state) (r : result unit) :
  announced_once s -> for_range i n the_frame s = (r, s') ->
  at_most_once s' /\ (r = Ok tt -> announced_once s')
  /\ (quantum_triggered s = true -> quantum_triggered s' = true).
Proof.
  revert i s. induction n as [|n IH]; intros i s Hinv.
  - cbn. unfold ret. intros H; injection H as <- <-.
    auto using announced_once_at_most.
  - cbn [for_range]. unfold bind.
    destruct (the_frame i s) as [[[]|e] s1] eqn:Hf;
      destruct (frame_announced _ _ _ _ Hinv Hf) as (Hamo & Hok & Hmono).
    + intros H. destruct (IH _ _ (Hok eq_refl) H) as (Hamo' & Hok' & Hmono').
      auto.
    + intros H; injection H as <- <-. split; [assumption|].
      split; [discriminate|assumption].
Qed.

Lemma init_announced : announced_once init.
Proof. repeat split; cbn; lia. Qed.

(** After [n] completed frames each series has [n] elements and the
    element of index [i] is the value the formulas give for frame [i]. *)
Lemma run_frames_series (n : nat) (s : state) :
  the_frames n init = (Ok tt, s) ->
  (List.length (times s) = n /\ List.length (classical s) = n
   /\ List.length (quantum s) = n)
  /\ forall i : nat, (i < n)%nat ->
     time_of_frame cfg (Z.of_nat i) = Ok (nth i (times s) 0%float)
     /\ classical_count cfg (Z.of_nat i) = Ok (nth i (classical s) 0)
     /\ quantum_count quantum_power cfg (Z.of_nat i)
        = Ok (nth i (quantum s) 0).
Proof.
  revert s. induction n as [|n IH]; intros s.
  - cbn. unfold ret. intros H; injection H as <-. cbn.
    split; [auto|]. intros i Hi. lia.
  - rewrite run_frames_S.
    destruct (the_frames n init) as [[[]|e] s1]; [|discriminate].
    intros Hf.
    destruct (IH s1 eq_refl) as ((Lt & Lc & Lq) & Hnth).
    destruct (frame_Ok _ _ _ Hf)
      as (t & c & q & Ht & Hc & Hq & Et & Ec & Eq & _).
    rewrite Et, Ec, Eq, !List.length_app, Lt, Lc, Lq. cbn [List.length].
    split; [repeat split; lia|].
    intros i Hi.
    destruct (Nat.eq_dec i n) as [->|Hne].
    + rewrite !nth_snoc by assumption. auto.
    + rewrite !app_nth1 by lia. apply Hnth. lia.
Qed.

(** A frame whose three values are defined completes, unless the molecule
    is to be shown and does not parse. *)
Lemma frame_completes (i : Z) (s : state) (t : float) (c q : Z) :
  time_of_frame cfg i = Ok t -> classical_count cfg i = Ok c ->
  quantum_count quantum_power cfg i = Ok q ->
  show_molecule cfg = false \/ MolFromSmiles (smiles cfg) <> None ->
  exists s', the_frame i s = (Ok tt, s').
Proof.
  intros Ht Hc Hq Hmol.
  unfold frame, breakthrough, play_sound, bind, lift, get, ret, emit,
    append_times, append_classical, append_quantum, set_quantum_triggered,
    modify, get_molecule_img_dark.
  rewrite Ht, Hc, Hq. cbn.
  destruct (negb (quantum_triggered s) && (q >? c * 3)); cbn; [|eauto].
  destruct (show_molecule cfg); cbn; [|eauto].
  destruct (MolFromSmiles (smiles cfg)); cbn; [eauto|].
  destruct Hmol; [discriminate|congruence].
Qed.

Lemma loop_completes (n : nat) (i : Z) (s : state) :
  (forall j, i <= j < i + Z.of_nat n ->
     exists t c q, time_of_frame cfg j = Ok t /\ classical_count cfg j = Ok c
                   /\ quantum_count quantum_power cfg j = Ok q) ->
  show_molecule cfg = false \/ MolFromSmiles (smiles cfg) <> None ->
  exists s', for_range i n the_frame s = (Ok tt, s').
Proof.
  revert i s. induction n as [|n IH]; intros i s Hdef Hmol.
  - cbn. unfold ret. eauto.
  - cbn [for_range]. unfold bind.
    destruct (Hdef i ltac:(lia)) as (t & c & q & Ht & Hc & Hq).
    destruct (frame_completes i s t c q Ht Hc Hq Hmol) as (s1 & ->).
    apply IH; [|assumption]. intros j Hj. apply Hdef. lia.
Qed.

(** A completed loop of [n] frames has completed every shorter loop, and
    the series then were the first elements of the series now. *)
Lemma run_frames_prefix (n : nat) (s : state) :
  the_frames n init = (Ok tt, s) ->
  forall k : nat, (k <= n)%nat ->
  exists sk,
    the_frames k init = (Ok tt, sk)
    /\ times sk = firstn k (times s)
    /\ classical sk = firstn k (classical s)
    /\ quantum sk = firstn k (quantum s).
Proof.
  revert s. induction n as [|n IH]; intros s Hrun k Hk.
  - assert (k = 0%nat) as -> by lia. exists s. rewrite !firstn_O.
    cbn in Hrun. unfold ret in Hrun. injection Hrun as <-. auto.
  - destruct (run_frames_series _ _ Hrun) as ((Lt & Lc & Lq) & _).
    destruct (Nat.eq_dec k (S n)) as [->|Hne].
    + exists s. rewrite <- Lt at 2. rewrite <- Lc at 2. rewrite <- Lq at 2.
      rewrite !firstn_all. auto.
    + rewrite run_frames_S in Hrun.
      destruct (the_frames n init) as [[[]|e] s1] eqn:Hn; [|discriminate].
      destruct (run_frames_series _ _ Hn) as ((Lt1 & Lc1 & Lq1) & _).
      destruct (frame_Ok _ _ _ Hrun)
        as (t & c & q & _ & _ & _ & Et & Ec & Eq & _).
      destruct (IH s1 eq_refl k ltac:(lia)) as (sk & Hsk & Pt & Pc & Pq).
      exists sk. rewrite Et, Ec, Eq, !firstn_app, Lt1, Lc1, Lq1.
      replace (k - n)%nat with 0%nat by lia.
      rewrite !firstn_O, !app_nil_r. auto.
Qed.

(** After [n] completed frames the flag is set exactly when some frame so
    far had a quantum value above three times its classical value. *)
Lemma run_frames_flag (n : nat) (s : state) :
  the_frames n init = (Ok tt, s) ->
  quantum_triggered s = true <->
  exists i : nat, (i < n)%nat
    /\ nth i (quantum s) 0 > nth i (classical s) 0 * 3.
Proof.
  revert s. induction n as [|n IH]; intros s Hrun.
  - cbn in Hrun. unfold ret in Hrun. injection Hrun as <-. cbn.
    split; [discriminate|]. intros (i & Hi & _). lia.
  - rewrite run_frames_S in Hrun.
    destruct (the_frames n init) as [[[]|e] s1] eqn:Hn; [|discriminate].
    destruct (run_frames_series _ _ Hn) as ((_ & Lc1 & Lq1) & _).
    destruct (frame_Ok _ _ _ Hrun)
      as (t & c & q & _ & _ & _ & _ & Ec & Eq & Eflag).
    rewrite Eflag, Ec, Eq, orb_true_iff, (IH s1 eq_refl). split.
    + intros [(i & Hi & Hgt)|Hgt].
      * exists i. rewrite !app_nth1 by lia. split; [lia|assumption].
      * exists n. rewrite !nth_snoc by assumption.
        apply Z.gtb_lt in Hgt. split; lia.
    + intros (i & Hi & Hgt).
      destruct (Nat.eq_dec i n) as [->|Hne].
      * right. rewrite !nth_snoc in Hgt by assumption.
        apply Z.gtb_lt. lia.
      * left. exists i. rewrite !app_nth1 in Hgt by lia.
        split; [lia|assumption].
Qed.

End DriverFacts.

(** ** The classical curve on the slider ranges *)

Lemma float_of_Z_to_Z (x : int) : Py.float_of_Z (Uint63.to_Z x) = of_uint63 x.
Proof.
  unfold Py.float_of_Z. pose proof (Uint63.to_Z_bounded x) as Hx.
  destruct (Uint63.to_Z x) eqn:E; try (rewrite <- E, Uint63.of_to_Z; reflexivity).
  lia.
Qed.

Lemma to_Z_of_Z_small (z : Z) : 0 <= z < 2 ^ 62 -> Uint63.to_Z (Uint63.of_Z z) = z.
Proof.
  intros Hz. rewrite Uint63.of_Z_spec. apply Z.mod_small.
  change wB with (2 ^ 63). lia.
Qed.

Lemma float_of_Z_small (z : Z) :
  0 <= z < 2 ^ 62 -> Py.float_of_Z z = of_uint63 (Uint63.of_Z z).
Proof.
  intros Hz. rewrite <- (to_Z_of_Z_small z Hz) at 1. apply float_of_Z_to_Z.
Qed.

(** [float_of_Z] is the conversion the IEEE specification gives: the
    integer rounded to nearest-even at 53 bits. *)
Lemma float_of_Z_spec (z : Z) :
  0 <= z < 2 ^ 62 ->
  Prim2SF (Py.float_of_Z z) = binary_normalize prec emax z 0 false.
Proof.
  intros Hz. rewrite float_of_Z_small, of_uint63_spec, to_Z_of_Z_small
    by assumption.
  reflexivity.
Qed.

(** The primitive computation agrees with [Py.int]. *)
Lemma int_classical63 (i : int) (r : float) (c : int) :
  Check.classical63 i r = Some c ->
  Py.int (of_uint63 i * r)%float = Ok (Uint63.to_Z c).
Proof.
  unfold Check.classical63, Py.int.
  destruct (is_nan _); [discriminate|].
  destruct (is_infinity _); [discriminate|].
  destruct (get_sign _); [discriminate|]. cbn [orb].
  destruct (frshiftexp _) as [m e].
  destruct (Uint63.leb e 2154) eqn:He; [|discriminate].
  intros H; injection H as <-. f_equal.
  apply Uint63.leb_spec in He. change (Uint63.to_Z 2154) with 2154 in He.
  pose proof (Uint63.to_Z_bounded e) as Hbe.
  rewrite Uint63.lsr_spec, Uint63.sub_spec.
  change (Uint63.to_Z 2154) with 2154.
  rewrite (Z.mod_small (2154 - Uint63.to_Z e))
    by (change wB with (2 ^ 63); lia).
  unfold shift, prec.
  replace (Uint63.to_Z e - 2101 - 53) with (- (2154 - Uint63.to_Z e)) by lia.
  rewrite Z.shiftl_opp_r, Z.shiftr_div_pow2 by lia. reflexivity.
Qed.

(** What [Check.frames_ok] establishes about frames [i .. i + n - 1] for a
    ratio [r]: each value is defined, within one below the exact quotient,
    at least [p], and at most every later value. *)
Lemma frames_ok_sound (M F : int) (r : float) (n : nat) :
  forall (i p : int),
  Check.frames_ok n i M F r p = true ->
  Uint63.to_Z i + Z.of_nat n <= 1000 -> Uint63.to_Z M <= 10000 ->
  0 < Uint63.to_Z F ->
  forall j, Uint63.to_Z i <= j < Uint63.to_Z i + Z.of_nat n ->
  exists c,
    Py.int (of_uint63 (Uint63.of_Z j) * r)%float = Ok c
    /\ Uint63.to_Z p <= c
    /\ j * Uint63.to_Z M / Uint63.to_Z F - 1 <= c
       <= j * Uint63.to_Z M / Uint63.to_Z F
    /\ forall j' c', j <= j' < Uint63.to_Z i + Z.of_nat n ->
         Py.int (of_uint63 (Uint63.of_Z j') * r)%float = Ok c' -> c <= c'.
Proof.
  induction n as [|n IH]; intros i p Hok Hi HM HF j Hj; [lia|].
  cbn [Check.frames_ok] in Hok.
  destruct (Check.classical63 i r) as [c|] eqn:Hc; [|discriminate].
  apply andb_prop in Hok as [Hok Hrest].
  apply andb_prop in Hok as [Hok Hhi].
  apply andb_prop in Hok as [Hp Hlo].
  apply Uint63.leb_spec in Hp, Hlo, Hhi.
  pose proof (Uint63.to_Z_bounded i) as Hbi.
  pose proof (Uint63.to_Z_bounded M) as HbM.
  pose proof (Uint63.to_Z_bounded c) as Hbc.
  assert (He : Uint63.to_Z (i * M / F)%uint63
               = Uint63.to_Z i * Uint63.to_Z M / Uint63.to_Z F).
  { rewrite Uint63.div_spec, Uint63.mul_spec, Z.mod_small; [reflexivity|].
    change wB with (2 ^ 63). nia. }
  rewrite He in Hlo, Hhi.
  assert (Hq : Uint63.to_Z i * Uint63.to_Z M / Uint63.to_Z F <= 10000000).
  { apply Z.div_le_upper_bound; nia. }
  assert (Hc1 : Uint63.to_Z (c + 1)%uint63 = Uint63.to_Z c + 1).
  { rewrite Uint63.add_spec. change (Uint63.to_Z 1) with 1.
    apply Z.mod_small. change wB with (2 ^ 63). lia. }
  rewrite Hc1 in Hhi.
  assert (Hi1 : Uint63.to_Z (i + 1)%uint63 = Uint63.to_Z i + 1).
  { rewrite Uint63.add_spec. change (Uint63.to_Z 1) with 1.
    apply Z.mod_small. change wB with (2 ^ 63). lia. }
  apply int_classical63 in Hc.
  specialize (IH (i + 1)%uint63 c Hrest).
  rewrite Hi1 in IH.
  specialize (IH ltac:(lia) HM HF).
  destruct (Z.eq_dec j (Uint63.to_Z i)) as [->|Hne].
  - rewrite Uint63.of_to_Z. exists (Uint63.to_Z c).
    repeat split; try lia; try assumption.
    intros j' c' Hj' Hc'.
    destruct (Z.eq_dec j' (Uint63.to_Z i)) as [->|Hne'].
    + rewrite Uint63.of_to_Z, Hc in Hc'. injection Hc' as <-. lia.
    + destruct (IH j' ltac:(lia)) as (c'' & Hc'' & Hge & _).
      rewrite Hc'' in Hc'. injection Hc' as <-. assumption.
  - destruct (IH j ltac:(lia)) as (cj & Hcj & Hge & Hbounds & Hmono).
    exists cj. repeat split; try lia; try assumption.
    intros j' c' Hj' Hc'. apply (Hmono j' c'); [lia|assumption].
Qed.

Lemma candidates_ok_sound (F : int) (nF n : nat) :
  forall M0 : int,
  Check.candidates_ok n M0 F nF = true ->
  Uint63.to_Z M0 + Z.of_nat n <= 10001 ->
  forall M, Uint63.to_Z M0 <= M < Uint63.to_Z M0 + Z.of_nat n ->
  Check.frames_ok nF 0 (Uint63.of_Z M) F
    (of_uint63 (Uint63.of_Z M) / of_uint63 F)%float 0 = true.
Proof.
  induction n as [|n IH]; intros M0 Hok HM0 M HM; [lia|].
  cbn [Check.candidates_ok] in Hok.
  apply andb_prop in Hok as [Hhere Hrest].
  pose proof (Uint63.to_Z_bounded M0) as Hb.
  assert (H1 : Uint63.to_Z (M0 + 1)%uint63 = Uint63.to_Z M0 + 1).
  { rewrite Uint63.add_spec. change (Uint63.to_Z 1) with 1.
    apply Z.mod_small. change wB with (2 ^ 63). lia. }
  destruct (Z.eq_dec M (Uint63.to_Z M0)) as [->|Hne].
  - rewrite Uint63.of_to_Z. assumption.
  - apply (IH (M0 + 1)%uint63 Hrest); lia.
Qed.

Lemma durations_ok_sound (n : nat) :
  forall d0 : int,
  Check.durations_ok n d0 = true ->
  Uint63.to_Z d0 + Z.of_nat n <= 31 ->
  forall d, Uint63.to_Z d0 <= d < Uint63.to_Z d0 + Z.of_nat n ->
  Check.candidates_ok (Z.to_nat 9901) 100 (Uint63.of_Z d * 5)%uint63
    (Z.to_nat (Uint63.to_Z (Uint63.of_Z d * 5)%uint63)) = true.
Proof.
  induction n as [|n IH]; intros d0 Hok Hd0 d Hd; [lia|].
  cbn [Check.durations_ok] in Hok.
  apply andb_prop in Hok as [Hhere Hrest].
  pose proof (Uint63.to_Z_bounded d0) as Hb.
  assert (H1 : Uint63.to_Z (d0 + 1)%uint63 = Uint63.to_Z d0 + 1).
  { rewrite Uint63.add_spec. change (Uint63.to_Z 1) with 1.
    apply Z.mod_small. change wB with (2 ^ 63). lia. }
  destruct (Z.eq_dec d (Uint63.to_Z d0)) as [->|Hne].
  - rewrite Uint63.of_to_Z. assumption.
  - apply (IH (d0 + 1)%uint63 Hrest); lia.
Qed.

(** The check succeeds: 26 durations, 9901 candidate counts, every frame. *)
Lemma sliders_checked : Check.durations_ok 26 5 = true.
Proof. vm_compute. reflexivity. Qed.

Lemma classical_count_unfold (cfg : config) (i : Z) :
  frames cfg <> 0 ->
  classical_count cfg i
  = Py.int (Py.float_of_Z i
            * (Py.float_of_Z (max_candidates cfg) / Py.float_of_Z (frames cfg)))%float.
Proof.
  intros HF. unfold classical_count, Py.truediv.
  destruct (Z.eqb_spec (frames cfg) 0) as [|_]; [contradiction|]. reflexivity.
Qed.

(** On the slider ranges the classical value of every frame is defined, is
    the exact quotient or one less, and never decreases from a frame to a
    later one. *)
Lemma classical_on_sliders (cfg : config) :
  valid_config cfg ->
  forall i, 0 <= i < frames cfg ->
  exists c,
    classical_count cfg i = Ok c /\ 0 <= c
    /\ spec_classical i (max_candidates cfg) (frames cfg) - 1 <= c
       <= spec_classical i (max_candidates cfg) (frames cfg)
    /\ forall i' c', i <= i' < frames cfg ->
         classical_count cfg i' = Ok c' -> c <= c'.
Proof.
  intros [Hd HM] i Hi. unfold frames in *.
  set (d := duration cfg) in *. set (M := max_candidates cfg) in *.
  assert (HF : Uint63.to_Z (Uint63.of_Z d * 5)%uint63 = d * 5).
  { rewrite Uint63.mul_spec, to_Z_of_Z_small by lia.
    change (Uint63.to_Z 5) with 5. apply Z.mod_small.
    change wB with (2 ^ 63). lia. }
  pose proof (durations_ok_sound 26 5 sliders_checked) as Hdur.
  change (Uint63.to_Z 5) with 5 in Hdur.
  assert (Hd26 : Z.of_nat 26 = 26) by reflexivity. rewrite Hd26 in Hdur.
  specialize (Hdur ltac:(lia) d ltac:(lia)).
  pose proof (candidates_ok_sound _ _ _ 100 Hdur) as Hcand.
  change (Uint63.to_Z 100) with 100 in Hcand.
  rewrite Z2Nat.id in Hcand by lia.
  specialize (Hcand ltac:(lia) M ltac:(lia)).
  pose proof (frames_ok_sound _ _ _ _ 0 0 Hcand) as Hfr.
  change (Uint63.to_Z 0) with 0 in Hfr.
  rewrite HF, Z2Nat.id, to_Z_of_Z_small in Hfr by lia.
  specialize (Hfr ltac:(lia) ltac:(lia) ltac:(lia)).
  assert (Hcc : forall j, 0 <= j < d * 5 ->
            classical_count cfg j
            = Py.int (of_uint63 (Uint63.of_Z j)
                      * (of_uint63 (Uint63.of_Z M)
                         / of_uint63 (Uint63.of_Z d * 5)%uint63))%float).
  { intros j Hj. rewrite classical_count_unfold by (unfold frames; lia).
    unfold frames. fold d M.
    rewrite (float_of_Z_small j), (float_of_Z_small M) by lia.
    rewrite <- HF at 1. rewrite float_of_Z_to_Z. reflexivity. }
  destruct (Hfr i ltac:(lia)) as (c & Hc & Hc0 & Hbounds & Hmono).
  exists c. rewrite Hcc by lia. unfold spec_classical.
  repeat split; try lia; try assumption.
  intros i' c' Hi'. rewrite Hcc by lia. apply Hmono. lia.
Qed.

Lemma time_of_frame_defined (cfg : config) (i : Z) :
  frames cfg <> 0 -> exists t, time_of_frame cfg i = Ok t.
Proof.
  intros HF. unfold time_of_frame, Py.truediv.
  destruct (Z.eqb_spec (frames cfg) 0) as [|_]; [contradiction|].
  cbn. eauto.
Qed.

(** ** The series of a completed run *)

Lemma last_nth {A : Type} (l : list A) (d : A) :
  l <> [] -> Py.last l = Ok (nth (List.length l - 1) l d).
Proof.
  intros Hne. unfold Py.last.
  destruct (rev l) as [|x r] eqn:Hrev.
  - apply (f_equal (@rev A)) in Hrev. rewrite rev_involutive in Hrev.
    contradiction.
  - apply (f_equal (@rev A)) in Hrev. rewrite rev_involutive in Hrev.
    cbn in Hrev. subst l. rewrite List.length_app. cbn [List.length].
    rewrite nth_snoc by lia. reflexivity.
Qed.

Lemma run_series
    (wall : nat -> float) (quantum_power : Z -> Z -> Z -> result Z)
    (Mol : Type) (MolFromSmiles : string -> option Mol)
    (GetDrawingText : Mol -> string) (cfg : config) (s : state) :
  run wall quantum_power MolFromSmiles GetDrawingText cfg init = (Ok tt, s) ->
  (List.length (classical s) = Z.to_nat (frames cfg)
   /\ List.length (quantum s) = Z.to_nat (frames cfg))
  /\ forall i, 0 <= i < frames cfg ->
     classical_count cfg i = Ok (nth (Z.to_nat i) (classical s) 0)
     /\ quantum_count quantum_power cfg i
        = Ok (nth (Z.to_nat i) (quantum s) 0).
Proof.
  intros Hrun. unfold run in Hrun.
  destruct (run_frames_series _ _ _ _ _ _ _ _ Hrun)
    as ((_ & Lc & Lq) & Hnth).
  split; [auto|]. intros i Hi.
  destruct (Hnth (Z.to_nat i) ltac:(lia)) as (_ & Hc & Hq).
  rewrite Z2Nat.id in Hc, Hq by lia. auto.
Qed.

Lemma quantum_count_exact (cfg : config) (i : Z) :
  quantum_count exact_quantum_power cfg i
  = Ok (spec_quantum i (max_candidates cfg) (frames cfg)).
Proof. reflexivity. Qed.

Lemma spec_quantum_mono (i j M F : Z) :
  1 <= F -> 1 <= M -> 0 <= i <= j -> spec_quantum i M F <= spec_quantum j M F.
Proof.
  intros HF HM Hij. unfold spec_quantum.
  apply Z.min_le_compat_r, nth_root_mono; [assumption|].
  split; [apply Z.pow_nonneg; lia|].
  apply Z.pow_le_mono_r; lia.
Qed.

Lemma spec_quantum_last (M F : Z) :
  1 <= F -> 2 <= M -> spec_quantum (F - 1) M F < M.
Proof.
  intros HF HM. unfold spec_quantum.
  apply Z.min_lt_iff. left.
  assert (Hn : 0 <= M ^ (F - 1)) by (apply Z.pow_nonneg; lia).
  destruct (nth_root_spec F (M ^ (F - 1)) HF Hn) as (Hr & Hlo & _).
  apply (pow_lt_cancel F); try lia.
  apply Z.le_lt_trans with (M ^ (F - 1)); [assumption|].
  apply Z.pow_lt_mono_r; lia.
Qed.

(** What frame 0 does on a fresh page when its values meet the
    breakthrough condition. *)
Lemma first_frame_triggers
    (wall : nat -> float) (quantum_power : Z -> Z -> Z -> result Z)
    (Mol : Type) (MolFromSmiles : string -> option Mol)
    (GetDrawingText : Mol -> string) (cfg : config)
    (t : float) (c q : Z) :
  time_of_frame cfg 0 = Ok t -> classical_count cfg 0 = Ok c ->
  quantum_count quantum_power cfg 0 = Ok q -> q > c * 3 ->
  let out := frame wall quantum_power MolFromSmiles GetDrawingText cfg 0 init in
  (classical (snd out) = [c] /\ quantum (snd out) = [q]
   /\ count is_sound (effects (snd out)) = 1%nat)
  /\ (show_molecule cfg = false \/ MolFromSmiles (smiles cfg) <> None ->
      fst out = Ok tt /\ quantum_triggered (snd out) = true)
  /\ (show_molecule cfg = true -> MolFromSmiles (smiles cfg) = None ->
      fst out = Raise ArgumentError /\ quantum_triggered (snd out) = false).
Proof.
  intros Ht Hc Hq Hgt.
  assert (Hcmp : (q >? c * 3) = true) by (apply Z.gtb_lt; lia).
  unfold frame, breakthrough, play_sound, bind, lift, get, ret, emit,
    append_times, append_classical, append_quantum,
    set_quantum_triggered, modify, get_molecule_img_dark.
  rewrite Ht, Hc, Hq. cbn. rewrite Hcmp. cbn.
  destruct (show_molecule cfg); cbn.
  - destruct (MolFromSmiles (smiles cfg)); cbn.
    + split; [auto|]. split; [auto|]. intros _ E. discriminate E.
    + split; [auto|]. split; [|auto].
      intros [E|E]; [discriminate E|congruence].
  - split; [auto|]. split; [auto|]. intros E. discriminate E.
Qed.

Lemma classical_count_first (cfg : config) :
  valid_config cfg -> classical_count cfg 0 = Ok 0.
Proof.
  intros Hvalid.
  assert (HF : 25 <= frames cfg)
    by (destruct Hvalid as [Hd _]; unfold frames; lia).
  destruct (classical_on_sliders cfg Hvalid 0 ltac:(lia))
    as (c & Ec & Hc0 & (_ & Hhi) & _).
  unfold spec_classical in Hhi. rewrite Z.mul_0_l, Z.div_0_l in Hhi by lia.
  rewrite Ec. f_equal. lia.
Qed.

Lemma spec_quantum_first (M F : Z) :
  1 <= F -> 1 <= M -> spec_quantum 0 M F = 1.
Proof.
  intros HF HM. unfold spec_quantum.
  rewrite Z.pow_0_r, nth_root_one by assumption. lia.
Qed.

(** With line 91 over the reals, a run on the slider ranges completes
    unless the molecule is to be shown and does not parse. *)
Lemma exact_run_completes
    (wall : nat -> float) (Mol : Type) (MolFromSmiles : string -> option Mol)
    (GetDrawingText : Mol -> string) (cfg : config) :
  valid_config cfg ->
  show_molecule cfg = false \/ MolFromSmiles (smiles cfg) <> None ->
  exists s,
    run wall exact_quantum_power MolFromSmiles GetDrawingText cfg init
    = (Ok tt, s).
Proof.
  intros Hvalid Hmol.
  assert (HF : 25 <= frames cfg)
    by (destruct Hvalid as [Hd _]; unfold frames; lia).
  unfold run, run_frames. apply loop_completes; [|assumption].
  intros j Hj. rewrite Z2Nat.id in Hj by lia.
  destruct (time_of_frame_defined cfg j ltac:(lia)) as [t Ht].
  destruct (classical_on_sliders cfg Hvalid j ltac:(lia)) as (c & Hc & _).
  exists t, c, (spec_quantum j (max_candidates cfg) (frames cfg)).
  auto using quantum_count_exact.
Qed.

(** ... and otherwise stops in frame 0, each series holding one value. *)
Lemma exact_run_aborts
    (wall : nat -> float) (Mol : Type) (MolFromSmiles : string -> option Mol)
    (GetDrawingText : Mol -> string) (cfg : config) :
  valid_config cfg ->
  show_molecule cfg = true -> MolFromSmiles (smiles cfg) = None ->
  exists s,
    run wall exact_quantum_power MolFromSmiles GetDrawingText cfg init
    = (Raise ArgumentError, s)
    /\ classical s = [0] /\ quantum s = [1].
Proof.
  intros Hvalid Hshow Hnone.
  assert (HF : 25 <= frames cfg)
    by (destruct Hvalid as [Hd _]; unfold frames; lia).
  assert (HM : 100 <= max_candidates cfg) by (destruct Hvalid; lia).
  destruct (time_of_frame_defined cfg 0 ltac:(lia)) as [t Ht].
  pose proof (classical_count_first cfg Hvalid) as Hc.
  pose proof (quantum_count_exact cfg 0) as Hq.
  rewrite spec_quantum_first in Hq by lia.
  destruct (first_frame_triggers wall exact_quantum_power Mol MolFromSmiles
              GetDrawingText cfg t 0 1 Ht Hc Hq ltac:(reflexivity))
    as ((Ec & Eq & _) & _ & Habort).
  destruct (Habort Hshow Hnone) as [Hr _].
  unfold run, run_frames.
  destruct (Z.to_nat (frames cfg)) as [|n] eqn:En; [lia|].
  cbn [for_range]. unfold bind.
  destruct (frame wall exact_quantum_power MolFromSmiles GetDrawingText
              cfg 0 init) as [r0 s0].
  cbn [fst snd] in *. subst r0. eauto.
Qed.

(** * The claims *)

(** ** C9: the series are a function of the configuration *)

(** C9.  Two runs with the same configuration produce the same [times],
    [classical] and [quantum] series, whatever the wall clock reads during
    either run: the loop reads the clock (line 86) and never uses the
    reading, and nothing else it computes the series from varies between
    runs. *)
Theorem C9_runs_deterministic
    (wall wall' : nat -> float) (quantum_power : Z -> Z -> Z -> result Z)
    (Mol : Type) (MolFromSmiles : string -> option Mol)
    (GetDrawingText : Mol -> string) (cfg : config) :
  let s := snd (run wall quantum_power MolFromSmiles GetDrawingText cfg init) in
  let s' := snd (run wall' quantum_power MolFromSmiles GetDrawingText cfg init) in
  times s = times s' /\ classical s = classical s' /\ quantum s = quantum s'.
Proof.
  assert (Hframe : forall i,
    frame wall quantum_power MolFromSmiles GetDrawingText cfg i
    = frame wall' quantum_power MolFromSmiles GetDrawingText cfg i)
    by reflexivity.
  assert (Hloop : forall n i s,
    for_range i n (frame wall quantum_power MolFromSmiles GetDrawingText cfg) s
    = for_range i n (frame wall' quantum_power MolFromSmiles GetDrawingText cfg) s).
  { induction n as [|n IH]; intros i s; [reflexivity|].
    cbn [for_range]. unfold bind. rewrite Hframe.
    destruct (frame wall' quantum_power MolFromSmiles GetDrawingText cfg i s)
      as [[[]|e] s1]; [apply IH|reflexivity]. }
  cbv zeta. unfold run, run_frames. rewrite Hloop. auto.
Qed.

(** ** C4: one element per frame, never removed *)

(** C4.  After [n] completed frames (that is, after frame [n - 1]) each of
    the three series has [n] elements; the series after any earlier frame
    were the first elements of the present ones, so elements are appended
    and never removed or overwritten; and after a completed run each series
    has [frames] elements. *)
Theorem C4_series_lengths
    (wall : nat -> float) (quantum_power : Z -> Z -> Z -> result Z)
    (Mol : Type) (MolFromSmiles : string -> option Mol)
    (GetDrawingText : Mol -> string) (cfg : config)
    (n : nat) (s : state) :
  run_frames wall quantum_power MolFromSmiles GetDrawingText cfg n init
  = (Ok tt, s) ->
  (List.length (times s) = n /\ List.length (classical s) = n
   /\ List.length (quantum s) = n)
  /\ (forall k : nat, (k <= n)%nat ->
      exists sk,
        run_frames wall quantum_power MolFromSmiles GetDrawingText cfg k init
        = (Ok tt, sk)
        /\ times sk = firstn k (times s)
        /\ classical sk = firstn k (classical s)
        /\ quantum sk = firstn k (quantum s))
  /\ (forall s',
      run wall quantum_power MolFromSmiles GetDrawingText cfg init
      = (Ok tt, s') ->
      List.length (times s') = Z.to_nat (frames cfg)
      /\ List.length (classical s') = Z.to_nat (frames cfg)
      /\ List.length (quantum s') = Z.to_nat (frames cfg)).
Proof.
  intros Hrun. split; [|split].
  - eapply run_frames_series; eassumption.
  - eapply run_frames_prefix; eassumption.
  - intros s' Hrun'. eapply run_frames_series; eassumption.
Qed.

(** ** C5: the breakthrough happens at most once *)

(** C5.  The flag starts unset.  Whatever the first [n] frames did
    (completed or stopped by an exception), each breakthrough effect (the
    sound, the heading, the molecule image) has occurred at most once;
    after [n] completed frames the flag is set exactly when some frame so
    far had [q > c * 3], so it is set by the first such frame; and once
    set it is still set after any further frames. *)
Theorem C5_breakthrough_once
    (wall : nat -> float) (quantum_power : Z -> Z -> Z -> result Z)
    (Mol : Type) (MolFromSmiles : string -> option Mol)
    (GetDrawingText : Mol -> string) (cfg : config)
    (n : nat) (r : result unit) (s : state) :
  run_frames wall quantum_power MolFromSmiles GetDrawingText cfg n init
  = (r, s) ->
  quantum_triggered init = false
  /\ at_most_once s
  /\ (r = Ok tt ->
      (quantum_triggered s = true <->
       exists i : nat, (i < n)%nat
         /\ nth i (quantum s) 0 > nth i (classical s) 0 * 3))
  /\ (forall (k : nat) (r' : result unit) (s' : state),
      run_frames wall quantum_power MolFromSmiles GetDrawingText cfg
        (n + k) init = (r', s') ->
      quantum_triggered s = true -> quantum_triggered s' = true).
Proof.
  intros Hrun.
  destruct (loop_announced wall quantum_power Mol MolFromSmiles
              GetDrawingText cfg n 0 init s r init_announced Hrun)
    as (Hamo & Hok & _).
  split; [reflexivity|]. split; [assumption|]. split.
  - intros ->. eapply run_frames_flag; eassumption.
  - intros k r' s' Hrun'. rewrite run_frames_add, Hrun in Hrun'.
    destruct r as [[]|e].
    + destruct (loop_announced wall quantum_power Mol MolFromSmiles
                  GetDrawingText cfg k (Z.of_nat n) s s' r'
                  (Hok eq_refl) Hrun') as (_ & _ & Hmono).
      assumption.
    + injection Hrun' as <- <-. auto.
Qed.

Lemma C4_witness :
  List.length (times (snd (sample_run cfg_100_5))) = 25%nat.
Proof.
  refine (proj1 (proj1 (C4_series_lengths ticking_wall libm_quantum_power
            string Toolkit.MolFromSmiles Toolkit.GetDrawingText cfg_100_5 25
            (snd (sample_run cfg_100_5)) _))).
  vm_compute. reflexivity.
Defined.

Lemma C5_witness : at_most_once (snd (sample_run cfg_100_5)).
Proof.
  refine (proj1 (proj2 (C5_breakthrough_once ticking_wall libm_quantum_power
            string Toolkit.MolFromSmiles Toolkit.GetDrawingText cfg_100_5 25
            (Ok tt) (snd (sample_run cfg_100_5)) _))).
  vm_compute. reflexivity.
Defined.

(** ** C3: the values appended at each frame *)

(** At 205 candidates in 5 seconds the classical value of frame 15 is 122:
    [205 / 25] rounds to a binary64 number just below 8.2, the product
    with 15 rounds to 122.99999999999999, and [int] truncates; the real
    [floor (15 * (205 / 25))] is 123. *)
Lemma C3_counterexample :
  nth 15 (classical (snd (sample_run cfg_205_5))) 0 = 122
  /\ classical_count cfg_205_5 15 = Ok 122
  /\ spec_classical 15 (max_candidates cfg_205_5) (frames cfg_205_5) = 123.
Proof. vm_compute. auto. Qed.

(** C3 (amended).  On the slider ranges, with [frames = duration * 5], for
    every frame [i] of a completed run: the classical value is the
    binary64 product [i * (max_candidates / frames)] truncated, which is
    the real [floor (i * max_candidates / frames)] or one less; the
    quantum value is [min (p, max_candidates)] for [p] the binary64 power
    [2 ** (i * log2 (max_candidates) / frames)] truncated, with NumPy's
    [log2] and [power]. *)
Theorem C3_frame_values
    (np_log2 : float -> float) (np_power : float -> float -> float)
    (wall : nat -> float) (Mol : Type) (MolFromSmiles : string -> option Mol)
    (GetDrawingText : Mol -> string) (cfg : config) (s : state) :
  valid_config cfg ->
  run wall (np_quantum_power np_log2 np_power) MolFromSmiles GetDrawingText
    cfg init = (Ok tt, s) ->
  frames cfg = duration cfg * 5
  /\ forall i, 0 <= i < frames cfg ->
     let M := max_candidates cfg in
     let F := frames cfg in
     let c := nth (Z.to_nat i) (classical s) 0 in
     let q := nth (Z.to_nat i) (quantum s) 0 in
     Py.int (Py.float_of_Z i * (Py.float_of_Z M / Py.float_of_Z F))%float
     = Ok c
     /\ spec_classical i M F - 1 <= c <= spec_classical i M F
     /\ exists p,
         Py.int (np_power (Py.float_of_Z 2)
                   (Py.float_of_Z i * np_log2 (Py.float_of_Z M)
                    / Py.float_of_Z F)%float) = Ok p
         /\ q = Z.min p M.
Proof.
  intros Hvalid Hrun. split; [reflexivity|]. intros i Hi. cbv zeta.
  destruct (run_series _ _ _ _ _ _ _ Hrun) as (_ & Hnth).
  destruct (Hnth i Hi) as (Hc & Hq).
  destruct (classical_on_sliders cfg Hvalid i Hi) as (c & Hc' & _ & Hb & _).
  rewrite Hc in Hc'. injection Hc' as Ec. rewrite <- Ec in Hb.
  rewrite <- classical_count_unfold by lia.
  split; [assumption|]. split; [assumption|].
  unfold quantum_count, np_quantum_power, and_then in Hq.
  destruct (Py.int _) as [p|e]; [|discriminate].
  exists p. injection Hq as <-. auto.
Qed.

Lemma C3_witness :
  Py.int (Py.float_of_Z 15 * (Py.float_of_Z 205 / Py.float_of_Z 25))%float
  = Ok (nth 15 (classical (snd (sample_run cfg_205_5))) 0).
Proof.
  refine (proj1 (proj2 (C3_frame_values Libm.log2 Libm.power ticking_wall
            string Toolkit.MolFromSmiles Toolkit.GetDrawingText cfg_205_5
            (snd (sample_run cfg_205_5)) _ _) 15 _)).
  - unfold valid_config. cbn. lia.
  - vm_compute. reflexivity.
  - cbn. lia.
Defined.

(** ** C1: the last element of the quantum series *)




(** ** C6: both series are non-decreasing *)

Lemma completed_run_non_decreasing
    (wall : nat -> float) (Mol : Type) (MolFromSmiles : string -> option Mol)
    (GetDrawingText : Mol -> string) (cfg : config) (s : state) :
  valid_config cfg ->
  run wall exact_quantum_power MolFromSmiles GetDrawingText cfg init
  = (Ok tt, s) ->
  non_decreasing (classical s) /\ non_decreasing (quantum s).
Proof.
  intros Hvalid Hrun.
  destruct (run_series _ _ _ _ _ _ _ Hrun) as ((Lc & Lq) & Hnth).
  assert (HF : 25 <= frames cfg)
    by (destruct Hvalid as [Hd _]; unfold frames; lia).
  assert (HM : 100 <= max_candidates cfg) by (destruct Hvalid; lia).
  split; intros i Hi.
  - rewrite Lc in Hi.
    destruct (Hnth (Z.of_nat i) ltac:(lia)) as (Hc & _).
    destruct (Hnth (Z.of_nat (S i)) ltac:(lia)) as (Hc' & _).
    rewrite Nat2Z.id in Hc, Hc'.
    destruct (classical_on_sliders cfg Hvalid (Z.of_nat i) ltac:(lia))
      as (c & Ec & _ & _ & Hmono).
    rewrite Hc in Ec. injection Ec as Ec. rewrite Ec.
    apply (Hmono (Z.of_nat (S i))); [lia|assumption].
  - rewrite Lq in Hi.
    destruct (Hnth (Z.of_nat i) ltac:(lia)) as (_ & Hq).
    destruct (Hnth (Z.of_nat (S i)) ltac:(lia)) as (_ & Hq').
    rewrite Nat2Z.id, quantum_count_exact in Hq, Hq'.
    injection Hq as Hq. injection Hq' as Hq'. rewrite <- Hq, <- Hq'.
    apply spec_quantum_mono; lia.
Qed.



(** ** C2: a classical total of zero *)




(** On the slider ranges the last classical value of a completed run is
    positive, so the division of C2 is defined there. *)
Lemma classical_total_positive
    (wall : nat -> float) (quantum_power : Z -> Z -> Z -> result Z)
    (Mol : Type) (MolFromSmiles : string -> option Mol)
    (GetDrawingText : Mol -> string) (cfg : config) (s : state) :
  valid_config cfg ->
  run wall quantum_power MolFromSmiles GetDrawingText cfg init = (Ok tt, s) ->
  exists c, Py.last (classical s) = Ok c /\ 1 <= c.
Proof.
  intros Hvalid Hrun.
  destruct (run_series _ _ _ _ _ _ _ Hrun) as ((Lc & _) & Hnth).
  assert (HF : 25 <= frames cfg <= 150)
    by (destruct Hvalid as [Hd _]; unfold frames; lia).
  assert (HM : 100 <= max_candidates cfg) by (destruct Hvalid; lia).
  destruct (Hnth (frames cfg - 1) ltac:(lia)) as (Hc & _).
  destruct (classical_on_sliders cfg Hvalid (frames cfg - 1) ltac:(lia))
    as (c & Ec & _ & (Hlo & _) & _).
  rewrite Hc in Ec. injection Ec as Ec.
  exists c. split.
  - rewrite (last_nth (classical s) 0).
    + rewrite Lc, <- Ec. do 2 f_equal. lia.
    + intros E. rewrite E in Lc. cbn in Lc. lia.
  - assert (2 <= spec_classical (frames cfg - 1) (max_candidates cfg)
                   (frames cfg)); [|lia].
    unfold spec_classical. apply Z.div_le_lower_bound; nia.
Qed.

(** ** C8: a run of no frame *)




(** ** C7: an invalid molecule descriptor *)

(** With a descriptor the toolkit does not parse and the molecule shown on
    the breakthrough, the loop stops with [ArgumentError] in frame 0, after
    the sound and the heading and before the flag is set; the name lookup
    of that descriptor gives the sentinel. *)
Lemma C7_counterexample :
  show_molecule cfg_bad_smiles = true
  /\ Toolkit.MolFromSmiles (smiles cfg_bad_smiles) = None
  /\ get_scientific_name (smiles cfg_bad_smiles) = "Unknown Compound"%string
  /\ fst (sample_run cfg_bad_smiles) = Raise ArgumentError
  /\ List.length (quantum (snd (sample_run cfg_bad_smiles))) = 1%nat
  /\ quantum_triggered (snd (sample_run cfg_bad_smiles)) = false.
Proof. vm_compute. auto 10. Qed.

(** C7 (amended).  The name lookup never fails: it returns the aspirin name
    for the aspirin string (after stripping white space) and the "Unknown
    Compound" sentinel for every other string.  The molecule render is not
    guarded: when frame 0 meets the breakthrough condition, the molecule is
    to be shown and the descriptor does not parse, the loop stops in frame 0
    with the renderer's exception, after the sound and before the image and
    the flag; when the molecule is not to be shown or the descriptor
    parses, frame 0 completes with the flag set. *)
Theorem C7_render_not_guarded
    (wall : nat -> float) (quantum_power : Z -> Z -> Z -> result Z)
    (Mol : Type) (MolFromSmiles : string -> option Mol)
    (GetDrawingText : Mol -> string) (cfg : config)
    (n : nat) (t : float) (c q : Z) :
  time_of_frame cfg 0 = Ok t -> classical_count cfg 0 = Ok c ->
  quantum_count quantum_power cfg 0 = Ok q -> q > c * 3 ->
  (forall d : string,
     get_scientific_name d
     = if String.eqb aspirin (Py.strip d)
       then "Acetylsalicylic acid (Aspirin)"%string
       else "Unknown Compound"%string)
  /\ (show_molecule cfg = true -> MolFromSmiles (smiles cfg) = None ->
      exists s,
        run_frames wall quantum_power MolFromSmiles GetDrawingText cfg
          (S n) init = (Raise ArgumentError, s)
        /\ quantum_triggered s = false
        /\ List.length (quantum s) = 1%nat
        /\ count is_sound (effects s) = 1%nat
        /\ count is_image (effects s) = 0%nat)
  /\ (show_molecule cfg = false \/ MolFromSmiles (smiles cfg) <> None ->
      exists s,
        frame wall quantum_power MolFromSmiles GetDrawingText cfg 0 init
        = (Ok tt, s)
        /\ quantum_triggered s = true).
Proof.
  intros Ht Hc Hq Hgt.
  assert (Hcmp : (q >? c * 3) = true) by (apply Z.gtb_lt; lia).
  split; [intros d; reflexivity|]. split.
  - intros Hshow Hnone.
    unfold run_frames. cbn [for_range].
    unfold frame, breakthrough, play_sound, bind, lift, get, ret, emit,
      append_times, append_classical, append_quantum,
      set_quantum_triggered, modify, get_molecule_img_dark.
    rewrite Ht, Hc, Hq. cbn. rewrite Hcmp, Hshow. cbn. rewrite Hnone.
    eexists. split; [reflexivity|]. cbn. auto.
  - intros Hmol.
    unfold frame, breakthrough, play_sound, bind, lift, get, ret, emit,
      append_times, append_classical, append_quantum,
      set_quantum_triggered, modify, get_molecule_img_dark.
    rewrite Ht, Hc, Hq. cbn. rewrite Hcmp. cbn.
    destruct (show_molecule cfg); cbn; [|eauto].
    destruct (MolFromSmiles (smiles cfg)); cbn; [eauto|].
    destruct Hmol; [discriminate|congruence].
Qed.

Lemma C7_witness :
  exists s,
    run_frames ticking_wall libm_quantum_power Toolkit.MolFromSmiles
      Toolkit.GetDrawingText cfg_bad_smiles 25 init = (Raise ArgumentError, s)
    /\ quantum_triggered s = false
    /\ List.length (quantum s) = 1%nat
    /\ count is_sound (effects s) = 1%nat
    /\ count is_image (effects s) = 0%nat.
Proof.
  refine (proj1 (proj2 (C7_render_not_guarded ticking_wall libm_quantum_power
            string Toolkit.MolFromSmiles Toolkit.GetDrawingText cfg_bad_smiles
            24 0%float 0 1 _ _ _ _)) _ _);
    try (vm_compute; reflexivity).
Defined.

(** ** C10: the breakthrough of the first frame *)

(** Zero times a finite number is a zero. *)
Lemma mul_zero_finite (x : float) :
  is_finite x = true -> (zero * x = zero \/ zero * x = neg_zero)%float.
Proof.
  unfold is_finite. intros H. apply negb_true_iff, orb_false_iff in H.
  destruct H as [Hnan Hinf].
  assert (Hz : exists b, Prim2SF (zero * x) = S754_zero b).
  { rewrite FloatAxioms.mul_spec.
    change (Prim2SF zero) with (S754_zero false).
    unfold Prim2SF. rewrite Hnan.
    destruct (PrimFloat.is_zero x); [cbn; eauto|].
    rewrite Hinf.
    destruct (Z.frexp x) as [r e].
    destruct (shr_fexp _ _ _ _ _) as [shr e'].
    destruct (shr_m shr); cbn; eauto. }
  destruct Hz as [b Hb].
  rewrite <- (SF2Prim_Prim2SF (zero * x)), Hb.
  destruct b; cbn; auto.
Qed.

Lemma zero_div_ok_sound (n : nat) :
  forall F0 : int,
  Check.zero_div_ok n F0 = true ->
  Uint63.to_Z F0 + Z.of_nat n <= 1000 ->
  forall F, Uint63.to_Z F0 <= F < Uint63.to_Z F0 + Z.of_nat n ->
  (zero / of_uint63 (Uint63.of_Z F) = zero
   /\ neg_zero / of_uint63 (Uint63.of_Z F) = neg_zero)%float.
Proof.
  induction n as [|n IH]; intros F0 Hok HF0 F HF; [lia|].
  cbn [Check.zero_div_ok] in Hok.
  apply andb_prop in Hok as [Hhere Hrest].
  apply andb_prop in Hhere as [Hpos Hneg].
  apply FloatAxioms.Leibniz.eqb_spec in Hpos, Hneg.
  pose proof (Uint63.to_Z_bounded F0) as Hb.
  assert (H1 : Uint63.to_Z (F0 + 1)%uint63 = Uint63.to_Z F0 + 1).
  { rewrite Uint63.add_spec. change (Uint63.to_Z 1) with 1.
    apply Z.mod_small. change wB with (2 ^ 63). lia. }
  destruct (Z.eq_dec F (Uint63.to_Z F0)) as [->|Hne].
  - rewrite Uint63.of_to_Z. auto.
  - apply (IH (F0 + 1)%uint63 Hrest); lia.
Qed.

Lemma zero_div_checked : Check.zero_div_ok 126 25 = true.
Proof. vm_compute. reflexivity. Qed.

(** The exponent of line 91 at frame 0 is a zero. *)
Lemma exponent_of_first_frame (cfg : config) (l : float) :
  valid_config cfg -> is_finite l = true ->
  let x := (Py.float_of_Z 0 * l / Py.float_of_Z (frames cfg))%float in
  x = zero \/ x = neg_zero.
Proof.
  intros [Hd _] Hfin. cbv zeta.
  assert (HF : 25 <= frames cfg <= 150) by (unfold frames; lia).
  rewrite (float_of_Z_small (frames cfg)) by lia.
  pose proof (zero_div_ok_sound 126 25 zero_div_checked) as Hdiv.
  change (Uint63.to_Z 25) with 25 in Hdiv.
  assert (H126 : Z.of_nat 126 = 126) by reflexivity. rewrite H126 in Hdiv.
  destruct (Hdiv ltac:(lia) (frames cfg) ltac:(lia)) as [Hpos Hneg].
  change (Py.float_of_Z 0) with zero.
  destruct (mul_zero_finite l Hfin) as [->| ->]; [left|right]; assumption.
Qed.



(** * Further properties of the script *)

(** ** Name lookup and white space (lines 38-42) *)

Lemma lstrip_spaces (l s : string) :
  all_isspace l = true -> Py.lstrip (l ++ s) = Py.lstrip s.
Proof.
  induction l as [|c l IH]; intros Hl; [reflexivity|].
  cbn in Hl. apply andb_prop in Hl as [Hc Hl].
  cbn. rewrite Hc. auto.
Qed.

Lemma lstrip_all_space (s : string) :
  all_isspace s = true -> Py.lstrip s = EmptyString.
Proof.
  induction s as [|c s IH]; intros Hs; [reflexivity|].
  cbn in Hs. apply andb_prop in Hs as [Hc Hs].
  cbn. rewrite Hc. auto.
Qed.

Lemma lstrip_app (s r : string) :
  Py.lstrip (s ++ r)
  = if all_isspace s then Py.lstrip r else (Py.lstrip s ++ r)%string.
Proof.
  induction s as [|c s IH]; [reflexivity|].
  cbn. destruct (Py.isspace c); [exact IH|reflexivity].
Qed.

Lemma rstrip_spaces (s r : string) :
  all_isspace r = true -> Py.rstrip (s ++ r) = Py.rstrip s.
Proof.
  intros Hr. induction s as [|c s IH].
  - cbn. induction r as [|c r IHr]; [reflexivity|].
    cbn in Hr. apply andb_prop in Hr as [Hc Hr].
    cbn. rewrite (IHr Hr), Hc. reflexivity.
  - cbn. rewrite IH. reflexivity.
Qed.

Lemma strip_spaces (l s r : string) :
  all_isspace l = true -> all_isspace r = true ->
  Py.strip (l ++ s ++ r) = Py.strip s.
Proof.
  intros Hl Hr. unfold Py.strip.
  rewrite lstrip_spaces, lstrip_app by assumption.
  destruct (all_isspace s) eqn:Hs.
  - rewrite (lstrip_all_space r Hr), (lstrip_all_space s Hs). reflexivity.
  - apply rstrip_spaces. assumption.
Qed.

Lemma lstrip_decompose (s : string) :
  exists l, all_isspace l = true /\ s = (l ++ Py.lstrip s)%string.
Proof.
  induction s as [|c s (l & Hl & IH)].
  - exists EmptyString. auto.
  - cbn. destruct (Py.isspace c) eqn:Hc.
    + exists (String c l). cbn. rewrite Hc, Hl, <- IH. auto.
    + exists EmptyString. auto.
Qed.

Lemma rstrip_decompose (s : string) :
  exists r, all_isspace r = true /\ s = (Py.rstrip s ++ r)%string.
Proof.
  induction s as [|c s (r & Hr & IH)].
  - exists EmptyString. auto.
  - cbn. destruct (Py.rstrip s) as [|c' t] eqn:Ht.
    + cbn in IH. subst r. destruct (Py.isspace c) eqn:Hc.
      * exists (String c s). cbn. rewrite Hc, Hr. auto.
      * exists s. auto.
    + exists r. split; [assumption|]. cbn. cbn in IH. rewrite <- IH.
      reflexivity.
Qed.

Lemma strip_decompose (s : string) :
  exists l r,
    all_isspace l = true /\ all_isspace r = true
    /\ s = (l ++ Py.strip s ++ r)%string.
Proof.
  destruct (lstrip_decompose s) as (l & Hl & El).
  destruct (rstrip_decompose (Py.lstrip s)) as (r & Hr & Er).
  exists l, r. unfold Py.strip. rewrite <- Er. auto.
Qed.

(** X1.  The name lookup ignores white space around the descriptor and
    nothing else: it gives the aspirin name exactly for the aspirin string
    with white space before and after it, and the sentinel for every other
    string (so also for aspirin written with spaces inside it). *)
Theorem name_lookup_up_to_spaces (d : string) :
  (forall l r, all_isspace l = true -> all_isspace r = true ->
     get_scientific_name (l ++ d ++ r) = get_scientific_name d)
  /\ (get_scientific_name d = "Acetylsalicylic acid (Aspirin)"%string <->
      exists l r, all_isspace l = true /\ all_isspace r = true
                  /\ d = (l ++ aspirin ++ r)%string)
  /\ (get_scientific_name d <> "Acetylsalicylic acid (Aspirin)"%string ->
      get_scientific_name d = "Unknown Compound"%string).
Proof.
  assert (Hname : get_scientific_name d
                  = if String.eqb aspirin (Py.strip d)
                    then "Acetylsalicylic acid (Aspirin)"%string
                    else "Unknown Compound"%string) by reflexivity.
  split; [|split].
  - intros l r Hl Hr. unfold get_scientific_name.
    rewrite strip_spaces by assumption. reflexivity.
  - rewrite Hname. split.
    + destruct (String.eqb_spec aspirin (Py.strip d)) as [E|_];
        [|discriminate].
      intros _. destruct (strip_decompose d) as (l & r & Hl & Hr & Ed).
      exists l, r. rewrite E. auto.
    + intros (l & r & Hl & Hr & ->).
      rewrite strip_spaces by assumption. reflexivity.
  - rewrite Hname. destruct (String.eqb aspirin (Py.strip d)); congruence.
Qed.

(** ** The time axis (lines 87-88) *)

Lemma for_all_from_spec (a n : nat) (test : nat -> bool) (k : nat) :
  for_all_from a n test = true -> (a <= k < a + n)%nat -> test k = true.
Proof.
  unfold for_all_from. intros Hall Hk.
  apply (proj1 (forallb_forall test (seq a n)) Hall).
  apply in_seq. assumption.
Qed.

Lemma times_checked : times_ok = true.
Proof. vm_compute. reflexivity. Qed.

Lemma time_of_frame_on_sliders (cfg : config) (i : Z) :
  valid_config cfg -> 0 <= i < frames cfg ->
  time_of_frame cfg i = Ok (Py.float_of_Z i * fifth)%float
  /\ PrimFloat.ltb (Py.float_of_Z i * fifth)%float
       (Py.float_of_Z (duration cfg)) = true
  /\ PrimFloat.ltb (Py.float_of_Z i * fifth)%float
       (Py.float_of_Z (i + 1) * fifth)%float = true.
Proof.
  intros [Hd _] Hi. unfold frames in *.
  pose proof times_checked as Hok. unfold times_ok in Hok.
  apply andb_prop in Hok as [Hdur Hnext].
  pose proof (for_all_from_spec 5 26 _ (Z.to_nat (duration cfg)) Hdur
                ltac:(lia)) as Hd'.
  cbv beta zeta in Hd'. rewrite Z2Nat.id in Hd' by lia.
  apply andb_prop in Hd' as [Hfifth Hbelow].
  apply FloatAxioms.Leibniz.eqb_spec in Hfifth.
  pose proof (for_all_from_spec 0 _ _ (Z.to_nat i) Hbelow ltac:(lia)) as Hlt.
  pose proof (for_all_from_spec 0 150 _ (Z.to_nat i) Hnext ltac:(lia))
    as Hlt'.
  cbv beta in Hlt, Hlt'.
  rewrite Nat2Z.inj_succ, Z2Nat.id in Hlt' by lia.
  rewrite Z2Nat.id in Hlt by lia.
  split; [|split; assumption].
  unfold time_of_frame, Py.truediv, frames, and_then.
  destruct (Z.eqb_spec (duration cfg * 5) 0) as [E|_]; [lia|].
  rewrite Hfifth. reflexivity.
Qed.

(** X2.  On the slider ranges the time axis of a completed run does not
    depend on the configuration beyond its length: [times[i]] is the
    binary64 product of [i] and the binary64 number nearest to 1/5
    (so [times[0]] is 0.0), every time is below [duration] and below the
    next time (Python's [<]). *)
Theorem times_axis
    (wall : nat -> float) (quantum_power : Z -> Z -> Z -> result Z)
    (Mol : Type) (MolFromSmiles : string -> option Mol)
    (GetDrawingText : Mol -> string) (cfg : config) (s : state) :
  valid_config cfg ->
  run wall quantum_power MolFromSmiles GetDrawingText cfg init = (Ok tt, s) ->
  List.length (times s) = Z.to_nat (duration cfg * 5)
  /\ forall i : nat, (i < List.length (times s))%nat ->
     nth i (times s) 0%float = (Py.float_of_Z (Z.of_nat i) * fifth)%float
     /\ PrimFloat.ltb (nth i (times s) 0%float)
          (Py.float_of_Z (duration cfg)) = true
     /\ ((S i < List.length (times s))%nat ->
         PrimFloat.ltb (nth i (times s) 0%float)
           (nth (S i) (times s) 0%float) = true).
Proof.
  intros Hvalid Hrun. unfold run in Hrun.
  destruct (run_frames_series _ _ _ _ _ _ _ _ Hrun) as ((Lt & _) & Hnth).
  fold (frames cfg). split; [assumption|]. rewrite Lt.
  assert (Hval : forall i : nat, (i < Z.to_nat (frames cfg))%nat ->
            nth i (times s) 0%float
            = (Py.float_of_Z (Z.of_nat i) * fifth)%float).
  { intros i Hi. destruct (Hnth i Hi) as (Ht & _).
    destruct (time_of_frame_on_sliders cfg (Z.of_nat i) Hvalid ltac:(lia))
      as (Ht' & _).
    rewrite Ht in Ht'. injection Ht' as Ht'. assumption. }
  intros i Hi.
  destruct (time_of_frame_on_sliders cfg (Z.of_nat i) Hvalid ltac:(lia))
    as (_ & Hbelow & Hnext).
  rewrite (Hval i Hi). split; [reflexivity|]. split; [assumption|].
  intros Hi'. rewrite (Hval (S i) Hi'), Nat2Z.inj_succ. assumption.
Qed.

Lemma times_axis_witness :
  nth 3 (times (snd (sample_run cfg_100_5))) 0%float
  = (Py.float_of_Z 3 * fifth)%float.
Proof.
  refine (proj1 (proj2 (times_axis ticking_wall libm_quantum_power string
            Toolkit.MolFromSmiles Toolkit.GetDrawingText cfg_100_5
            (snd (sample_run cfg_100_5)) _ _) 3%nat _)).
  - unfold valid_config. cbn. lia.
  - vm_compute. reflexivity.
  - vm_compute. lia.
Defined.

(** ** The range of the two curves (lines 90-93) *)

(** X3.  On the slider ranges, whatever NumPy's [log2] and [power] return,
    every value of a completed run lies within the chart's upper limit:
    the classical values are in [0, max_candidates) and the quantum values
    are at most [max_candidates]. *)
Theorem series_within_limits
    (wall : nat -> float) (quantum_power : Z -> Z -> Z -> result Z)
    (Mol : Type) (MolFromSmiles : string -> option Mol)
    (GetDrawingText : Mol -> string) (cfg : config) (s : state) :
  valid_config cfg ->
  run wall quantum_power MolFromSmiles GetDrawingText cfg init = (Ok tt, s) ->
  forall i : nat, (i < Z.to_nat (frames cfg))%nat ->
  0 <= nth i (classical s) 0 < max_candidates cfg
  /\ nth i (quantum s) 0 <= max_candidates cfg.
Proof.
  intros Hvalid Hrun i Hi.
  destruct (run_series _ _ _ _ _ _ _ Hrun) as (_ & Hnth).
  assert (HF : 25 <= frames cfg)
    by (destruct Hvalid as [Hd _]; unfold frames; lia).
  assert (HM : 100 <= max_candidates cfg) by (destruct Hvalid; lia).
  destruct (Hnth (Z.of_nat i) ltac:(lia)) as (Hc & Hq).
  rewrite Nat2Z.id in Hc, Hq.
  destruct (classical_on_sliders cfg Hvalid (Z.of_nat i) ltac:(lia))
    as (c & Ec & Hc0 & (_ & Hhi) & _).
  rewrite Hc in Ec. injection Ec as Ec. rewrite Ec. split.
  - split; [assumption|].
    apply Z.le_lt_trans with (1 := Hhi). unfold spec_classical.
    apply Z.div_lt_upper_bound; nia.
  - unfold quantum_count, and_then in Hq.
    destruct (quantum_power _ _ _) as [p|e]; [|discriminate].
    injection Hq as <-. apply Z.le_min_r.
Qed.

Lemma series_within_limits_witness :
  nth 24 (quantum (snd (sample_run cfg_100_5))) 0 <= 100.
Proof.
  refine (proj2 (series_within_limits ticking_wall libm_quantum_power string
            Toolkit.MolFromSmiles Toolkit.GetDrawingText cfg_100_5
            (snd (sample_run cfg_100_5)) _ _ 24%nat _)).
  - unfold valid_config. cbn. lia.
  - vm_compute. reflexivity.
  - vm_compute. lia.
Defined.

(** ** One redraw per frame, over the series so far (lines 95-114, 123) *)

Lemma filter_snoc {A : Type} (p : A -> bool) (l : list A) (x : A) :
  filter p (l ++ [x]) = if p x then filter p l ++ [x] else filter p l.
Proof.
  rewrite filter_app. cbn. destruct (p x); [reflexivity|apply app_nil_r].
Qed.

Section Redraw.

Variable wall : nat -> float.
Variable quantum_power : Z -> Z -> Z -> result Z.
Variable Mol : Type.
Variable MolFromSmiles : string -> option Mol.
Variable GetDrawingText : Mol -> string.
Variable cfg : config.

(** A completed frame has drawn the chart once, over its own series, and
    has slept once. *)
Lemma frame_redraws (i : Z) (s s' : state) :
  frame wall quantum_power MolFromSmiles GetDrawingText cfg i s = (Ok tt, s') ->
  filter is_plot (effects s') = filter is_plot (effects s) ++ [plot_of cfg s']
  /\ count is_sleep (effects s') = S (count is_sleep (effects s)).
Proof.
  unfold plot_of, count.
  unfold frame, breakthrough, play_sound, bind, lift, get, ret, emit,
    append_times, append_classical, append_quantum, set_quantum_triggered,
    modify, get_molecule_img_dark.
  cbn.
  destruct (time_of_frame cfg i) as [t|e]; cbn; [|discriminate].
  destruct (classical_count cfg i) as [c|e]; cbn; [|discriminate].
  destruct (quantum_count quantum_power cfg i) as [q|e]; cbn; [|discriminate].
  destruct (negb (quantum_triggered s) && (q >? c * 3)); cbn.
  - destruct (show_molecule cfg); cbn.
    + destruct (MolFromSmiles (smiles cfg)); cbn; [|discriminate].
      intros H; injection H as <-; cbn.
      rewrite !filter_snoc; cbn. rewrite !List.length_app. cbn.
      split; [reflexivity|lia].
    + intros H; injection H as <-; cbn.
      rewrite !filter_snoc; cbn. rewrite !List.length_app. cbn.
      split; [reflexivity|lia].
  - intros H; injection H as <-; cbn.
    rewrite !filter_snoc; cbn. rewrite !List.length_app. cbn.
    split; [reflexivity|lia].
Qed.

End Redraw.

Lemma plot_of_first_frames_snoc (cfg : config) (s s1 : state) (k n : nat)
    (t : float) (c q : Z) :
  List.length (times s1) = n -> List.length (classical s1) = n ->
  List.length (quantum s1) = n ->
  times s = times s1 ++ [t] -> classical s = classical s1 ++ [c] ->
  quantum s = quantum s1 ++ [q] -> (k < n)%nat ->
  plot_of cfg (first_frames (S k) s) = plot_of cfg (first_frames (S k) s1).
Proof.
  intros Lt Lc Lq Et Ec Eq Hk. unfold plot_of, first_frames.
  cbn [times classical quantum]. rewrite Et, Ec, Eq, !firstn_app, Lt, Lc, Lq.
  replace (S k - n)%nat with 0%nat by lia.
  rewrite !firstn_O, !app_nil_r. reflexivity.
Qed.

(** X4.  A completed loop of [n] frames has redrawn the chart exactly [n]
    times and slept exactly [n] times, and the [k]-th redraw (from 0) was
    made over the first [k + 1] elements of each of the three final series,
    with the configured scale and upper limit: the three plotted series
    always have the same length, and no point once plotted changes. *)
Theorem one_redraw_per_frame
    (wall : nat -> float) (quantum_power : Z -> Z -> Z -> result Z)
    (Mol : Type) (MolFromSmiles : string -> option Mol)
    (GetDrawingText : Mol -> string) (cfg : config)
    (n : nat) (s : state) :
  run_frames wall quantum_power MolFromSmiles GetDrawingText cfg n init
  = (Ok tt, s) ->
  filter is_plot (effects s)
  = map (fun k => plot_of cfg (first_frames (S k) s)) (seq 0 n)
  /\ count is_sleep (effects s) = n.
Proof.
  revert s. induction n as [|n IH]; intros s Hrun.
  - cbn in Hrun. unfold ret in Hrun. injection Hrun as <-. auto.
  - pose proof Hrun as Hrun'. rewrite run_frames_S in Hrun'.
    destruct (run_frames wall quantum_power MolFromSmiles GetDrawingText
                cfg n init) as [[[]|e] s1] eqn:Hn; [|discriminate].
    destruct (IH s1 eq_refl) as (Hplots & Hsleeps).
    destruct (run_frames_series _ _ _ _ _ _ _ _ Hn) as ((Lt & Lc & Lq) & _).
    destruct (run_frames_series _ _ _ _ _ _ _ _ Hrun)
      as ((Lt' & Lc' & Lq') & _).
    destruct (frame_Ok _ _ _ _ _ _ _ _ _ Hrun')
      as (t & c & q & _ & _ & _ & Et & Ec & Eq & _).
    destruct (frame_redraws _ _ _ _ _ _ _ _ _ Hrun') as (Hp & Hs).
    split; [|lia].
    rewrite Hp, Hplots, seq_S, map_app. cbn [map Nat.add]. f_equal.
    + apply map_ext_in. intros k Hk. apply in_seq in Hk. symmetry.
      apply (plot_of_first_frames_snoc cfg s s1 k n t c q); auto. lia.
    + unfold plot_of, first_frames. cbn [times classical quantum].
      rewrite !firstn_all2 by lia. reflexivity.
Qed.

Lemma one_redraw_per_frame_witness :
  count is_sleep (effects (snd (sample_run cfg_100_5))) = 25%nat.
Proof.
  refine (proj2 (one_redraw_per_frame ticking_wall libm_quantum_power string
            Toolkit.MolFromSmiles Toolkit.GetDrawingText cfg_100_5 25
            (snd (sample_run cfg_100_5)) _)).
  vm_compute. reflexivity.
Defined.

(** ** What the two check boxes change (lines 105-106, 119-120) *)

Section Checkboxes.

Variable wall : nat -> float.
Variable quantum_power : Z -> Z -> Z -> result Z.
Variable Mol Mol' : Type.
Variable MolFromSmiles : string -> option Mol.
Variable GetDrawingText : Mol -> string.
Variable MolFromSmiles' : string -> option Mol'.
Variable GetDrawingText' : Mol' -> string.
Variable cfg : config.

Lemma frame_hidden_molecule (d : string) (i : Z) (s : state) :
  show_molecule cfg = false ->
  frame wall quantum_power MolFromSmiles GetDrawingText cfg i s
  = frame wall quantum_power MolFromSmiles' GetDrawingText'
      (with_smiles cfg d) i s
  /\ (count is_image (effects s) = 0%nat ->
      count is_image
        (effects (snd (frame wall quantum_power MolFromSmiles GetDrawingText
                         cfg i s))) = 0%nat).
Proof.
  intros Hshow.
  change (time_of_frame (with_smiles cfg d)) with (time_of_frame cfg).
  unfold count.
  unfold frame, breakthrough, play_sound, bind, lift, get, ret, emit,
    append_times, append_classical, append_quantum, set_quantum_triggered,
    modify, get_molecule_img_dark.
  change (time_of_frame (with_smiles cfg d) i) with (time_of_frame cfg i).
  change (classical_count (with_smiles cfg d) i) with (classical_count cfg i).
  change (quantum_count quantum_power (with_smiles cfg d) i)
    with (quantum_count quantum_power cfg i).
  cbn. rewrite !Hshow.
  destruct (time_of_frame cfg i) as [t|e]; cbn; [|auto].
  destruct (classical_count cfg i) as [c|e]; cbn; [|auto].
  destruct (quantum_count quantum_power cfg i) as [q|e]; cbn; [|auto].
  destruct (negb (quantum_triggered s) && (q >? c * 3)); cbn;
    (split; [reflexivity|]); intros H0;
    rewrite !filter_snoc; cbn; assumption.
Qed.

Lemma loop_hidden_molecule (d : string) (n : nat) :
  show_molecule cfg = false ->
  forall (i : Z) (s : state),
  for_range i n (frame wall quantum_power MolFromSmiles GetDrawingText cfg) s
  = for_range i n (frame wall quantum_power MolFromSmiles' GetDrawingText'
                     (with_smiles cfg d)) s
  /\ (count is_image (effects s) = 0%nat ->
      count is_image
        (effects (snd (for_range i n
           (frame wall quantum_power MolFromSmiles GetDrawingText cfg) s)))
      = 0%nat).
Proof.
  intros Hshow. induction n as [|n IH]; intros i s.
  - cbn. auto.
  - cbn [for_range]. unfold bind.
    destruct (frame_hidden_molecule d i s Hshow) as [<- Himg].
    destruct (frame wall quantum_power MolFromSmiles GetDrawingText cfg i s)
      as [[[]|e] s1]; cbn [snd] in *.
    + destruct (IH (i + 1) s1) as [<- Himg']. auto.
    + auto.
Qed.

Lemma frame_scale (b : bool) (i : Z) (s s' : state) :
  same_but_scale s s' ->
  fst (frame wall quantum_power MolFromSmiles GetDrawingText cfg i s)
  = fst (frame wall quantum_power MolFromSmiles GetDrawingText
           (with_log_scale cfg b) i s')
  /\ same_but_scale
       (snd (frame wall quantum_power MolFromSmiles GetDrawingText cfg i s))
       (snd (frame wall quantum_power MolFromSmiles GetDrawingText
               (with_log_scale cfg b) i s')).
Proof.
  unfold same_but_scale. intros (Et & Ec & Eq & Ef & Ee).
  unfold frame, breakthrough, play_sound, bind, lift, get, ret, emit,
    append_times, append_classical, append_quantum, set_quantum_triggered,
    modify, get_molecule_img_dark.
  change (time_of_frame (with_log_scale cfg b) i) with (time_of_frame cfg i).
  change (classical_count (with_log_scale cfg b) i)
    with (classical_count cfg i).
  change (quantum_count quantum_power (with_log_scale cfg b) i)
    with (quantum_count quantum_power cfg i).
  cbn. rewrite <- Et, <- Ec, <- Eq, <- Ef.
  destruct (time_of_frame cfg i) as [t|e]; cbn; [|auto 10].
  destruct (classical_count cfg i) as [c|e]; cbn; [|auto 10].
  destruct (quantum_count quantum_power cfg i) as [q|e]; cbn; [|auto 10].
  destruct (negb (quantum_triggered s) && (q >? c * 3)); cbn.
  - destruct (show_molecule cfg); cbn.
    + destruct (MolFromSmiles (smiles cfg)); cbn;
        rewrite ?map_app, Ee; cbn; auto 10.
    + rewrite ?map_app, Ee. cbn. auto 10.
  - rewrite ?map_app, Ee. cbn. auto 10.
Qed.

Lemma loop_scale (b : bool) (n : nat) :
  forall (i : Z) (s s' : state),
  same_but_scale s s' ->
  fst (for_range i n
         (frame wall quantum_power MolFromSmiles GetDrawingText cfg) s)
  = fst (for_range i n
           (frame wall quantum_power MolFromSmiles GetDrawingText
              (with_log_scale cfg b)) s')
  /\ same_but_scale
       (snd (for_range i n
               (frame wall quantum_power MolFromSmiles GetDrawingText cfg) s))
       (snd (for_range i n
               (frame wall quantum_power MolFromSmiles GetDrawingText
                  (with_log_scale cfg b)) s')).
Proof.
  induction n as [|n IH]; intros i s s' Hs.
  - cbn. auto.
  - cbn [for_range]. unfold bind.
    destruct (frame_scale b i s s' Hs) as [Hfst Hsnd].
    destruct (frame wall quantum_power MolFromSmiles GetDrawingText cfg i s)
      as [r1 s1].
    destruct (frame wall quantum_power MolFromSmiles GetDrawingText
                (with_log_scale cfg b) i s') as [r2 s2].
    cbn [fst snd] in *. subst r2.
    destruct r1 as [[]|e]; [apply IH; assumption|auto].
Qed.

End Checkboxes.

(** X5.  With "Show Molecule on Win" unticked the loop does not look at
    the descriptor or at RDKit: the run (outcome, series, flag and page
    output) is the same for every descriptor and every toolkit, and no
    image is ever shown. *)
Theorem hidden_molecule_is_unused
    (wall : nat -> float) (quantum_power : Z -> Z -> Z -> result Z)
    (Mol Mol' : Type) (MolFromSmiles : string -> option Mol)
    (GetDrawingText : Mol -> string) (MolFromSmiles' : string -> option Mol')
    (GetDrawingText' : Mol' -> string) (cfg : config) (d : string) :
  show_molecule cfg = false ->
  run wall quantum_power MolFromSmiles GetDrawingText cfg init
  = run wall quantum_power MolFromSmiles' GetDrawingText'
      (with_smiles cfg d) init
  /\ count is_image
       (effects (snd (run wall quantum_power MolFromSmiles GetDrawingText
                        cfg init))) = 0%nat.
Proof.
  intros Hshow. unfold run, run_frames.
  change (frames (with_smiles cfg d)) with (frames cfg).
  destruct (loop_hidden_molecule wall quantum_power Mol Mol' MolFromSmiles
              GetDrawingText MolFromSmiles' GetDrawingText' cfg d
              (Z.to_nat (frames cfg)) Hshow 0 init) as [Heq Himg].
  split; [exact Heq|]. apply Himg. reflexivity.
Qed.

Lemma hidden_molecule_is_unused_witness :
  sample_run cfg_1_1
  = run ticking_wall libm_quantum_power (fun _ : string => @None unit)
      (fun _ : unit => EmptyString) (with_smiles cfg_1_1 "not a molecule")
      init.
Proof.
  refine (proj1 (hidden_molecule_is_unused ticking_wall libm_quantum_power
            string unit Toolkit.MolFromSmiles Toolkit.GetDrawingText
            (fun _ : string => @None unit) (fun _ : unit => EmptyString)
            cfg_1_1 "not a molecule" _)).
  reflexivity.
Defined.

(** X6.  The log-scale check box changes nothing but the scale of the
    charts: with the box set either way the run has the same outcome, the
    same three series and the same flag, and sends the same output to the
    page once the scale of each chart is forgotten. *)
Theorem log_scale_only_scales
    (wall : nat -> float) (quantum_power : Z -> Z -> Z -> result Z)
    (Mol : Type) (MolFromSmiles : string -> option Mol)
    (GetDrawingText : Mol -> string) (cfg : config) (b : bool) :
  fst (run wall quantum_power MolFromSmiles GetDrawingText cfg init)
  = fst (run wall quantum_power MolFromSmiles GetDrawingText
           (with_log_scale cfg b) init)
  /\ same_but_scale
       (snd (run wall quantum_power MolFromSmiles GetDrawingText cfg init))
       (snd (run wall quantum_power MolFromSmiles GetDrawingText
               (with_log_scale cfg b) init)).
Proof.
  unfold run, run_frames.
  change (frames (with_log_scale cfg b)) with (frames cfg).
  apply loop_scale. repeat split.
Qed.

(** ** The totals of a completed run (lines 126-130) *)

Lemma totals_checked :
  for_all_from 5 26 (fun d => totals_at (Z.of_nat d * 5)) = true.
Proof. vm_compute. reflexivity. Qed.

Lemma totals_step (F M : Z) :
  2 <= F -> 100 <= M ->
  F ^ F * M ^ (F - 1) < ((F - 1) * M - 2 * F) ^ F ->
  F ^ F * (M + 1) ^ (F - 1) < ((F - 1) * (M + 1) - 2 * F) ^ F.
Proof.
  intros HF HM H.
  set (a := (F - 1) * M - 2 * F) in *.
  replace ((F - 1) * (M + 1) - 2 * F) with (a + (F - 1)) by (unfold a; ring).
  assert (Ha : 0 < a) by (unfold a; nia).
  assert (H1 : a * (M + 1) < (a + (F - 1)) * M) by (unfold a; nia).
  assert (H2 : (a * (M + 1)) ^ F < ((a + (F - 1)) * M) ^ F)
    by (apply Z.pow_lt_mono_l; nia).
  rewrite !Z.pow_mul_l in H2.
  assert (HMF : forall x, x ^ F = x * x ^ (F - 1)).
  { intros x. rewrite <- Z.pow_succ_r by lia. f_equal. lia. }
  rewrite (HMF M), (HMF (M + 1)) in H2.
  set (X := M ^ (F - 1)) in *. set (Y := (M + 1) ^ (F - 1)) in *.
  set (P := F ^ F) in *. set (U := a ^ F) in *.
  set (V := (a + (F - 1)) ^ F) in *.
  assert (HX : 0 < X) by (apply Z.pow_pos_nonneg; lia).
  assert (HY : 0 < Y) by (apply Z.pow_pos_nonneg; lia).
  assert (HP : 0 < P) by (apply Z.pow_pos_nonneg; lia).
  destruct (Z.lt_ge_cases (P * Y) V) as [|Hge]; [assumption|exfalso].
  assert (E1 : P * X * ((M + 1) * Y) < U * ((M + 1) * Y))
    by (apply Z.mul_lt_mono_pos_r; nia).
  assert (E2 : V * (M * X) <= P * Y * (M * X))
    by (apply Z.mul_le_mono_nonneg_r; nia).
  assert (HQ : 0 < P * X * Y) by (repeat apply Z.mul_pos_pos; assumption).
  nia.
Qed.

Lemma totals_base (d : Z) : 5 <= d <= 30 -> totals_at (d * 5) = true.
Proof.
  intros Hd.
  pose proof (for_all_from_spec 5 26 _ (Z.to_nat d) totals_checked
                ltac:(lia)) as Hb.
  cbv beta in Hb. rewrite Z2Nat.id in Hb by lia. exact Hb.
Qed.

(** For every frame count of the slider range and every candidate count
    from 100 on. *)
Lemma totals_all (d M : Z) :
  5 <= d <= 30 -> 100 <= M ->
  (d * 5) ^ (d * 5) * M ^ (d * 5 - 1)
  < ((d * 5 - 1) * M - 2 * (d * 5)) ^ (d * 5).
Proof.
  intros Hd HM.
  replace M with (100 + Z.of_nat (Z.to_nat (M - 100))) by lia.
  induction (Z.to_nat (M - 100)) as [|k IH].
  - rewrite Z.add_0_r. apply Z.ltb_lt. apply (totals_base d Hd).
  - replace (100 + Z.of_nat (S k)) with (100 + Z.of_nat k + 1) by lia.
    apply totals_step; [lia|lia|exact IH].
Qed.

(** A classical total within one of the exact quotient is above the
    integer part of [M ^ ((F - 1) / F)]. *)
Lemma exact_total_below (cfg : config) (c : Z) :
  valid_config cfg ->
  spec_classical (frames cfg - 1) (max_candidates cfg) (frames cfg) - 1 <= c ->
  nth_root (frames cfg) (max_candidates cfg ^ (frames cfg - 1)) < c.
Proof.
  intros [Hd HM] Hc. unfold frames, spec_classical in *.
  set (F := duration cfg * 5) in *. set (M := max_candidates cfg) in *.
  assert (HF : 25 <= F) by (unfold F; lia).
  pose proof (totals_all (duration cfg) M Hd ltac:(lia)) as Htot.
  fold F in Htot.
  assert (Hn : 0 <= M ^ (F - 1)) by (apply Z.pow_nonneg; lia).
  destruct (nth_root_spec F (M ^ (F - 1)) ltac:(lia) Hn) as (Hr & Hlo & _).
  assert (Ha : 0 < (F - 1) * M - 2 * F) by nia.
  assert (HFc : (F - 1) * M - 2 * F < F * c).
  { pose proof (Z.mul_succ_div_gt ((F - 1) * M) F ltac:(lia)). nia. }
  assert (Hpow : ((F - 1) * M - 2 * F) ^ F < (F * c) ^ F)
    by (apply Z.pow_lt_mono_l; lia).
  rewrite Z.pow_mul_l in Hpow.
  assert (HP : 0 < F ^ F) by (apply Z.pow_pos_nonneg; lia).
  apply (pow_lt_cancel F); try lia.
  nia.
Qed.

(** On the slider ranges, with line 91 evaluated over the reals, a run
    that the renderer does not stop completes, and so do lines 126-130. *)
Lemma main_on_sliders
    (wall : nat -> float) (Mol : Type) (MolFromSmiles : string -> option Mol)
    (GetDrawingText : Mol -> string) (py_round : float -> Z -> float)
    (cfg : config) :
  valid_config cfg ->
  show_molecule cfg = false \/ MolFromSmiles (smiles cfg) <> None ->
  exists m s,
    main wall exact_quantum_power MolFromSmiles GetDrawingText py_round cfg
    = (Ok m, s)
    /\ run wall exact_quantum_power MolFromSmiles GetDrawingText cfg init
       = (Ok tt, s)
    /\ Py.last (quantum s) = Ok (q_total m)
    /\ Py.last (classical s) = Ok (c_total m)
    /\ 1 <= q_total m /\ q_total m < c_total m
    /\ c_total m < max_candidates cfg.
Proof.
  intros Hvalid Hmol.
  destruct (exact_run_completes wall Mol MolFromSmiles GetDrawingText cfg
              Hvalid Hmol) as [s Hrun].
  destruct (run_series _ _ _ _ _ _ _ Hrun) as ((Lc & Lq) & Hnth).
  assert (HF : 25 <= frames cfg)
    by (destruct Hvalid as [Hd _]; unfold frames; lia).
  assert (HM : 100 <= max_candidates cfg) by (destruct Hvalid; lia).
  destruct (Hnth (frames cfg - 1) ltac:(lia)) as (Hc & Hq).
  rewrite quantum_count_exact in Hq. injection Hq as Hq.
  destruct (classical_on_sliders cfg Hvalid (frames cfg - 1) ltac:(lia))
    as (c & Ec & _ & (Hlo & Hhi) & _).
  rewrite Hc in Ec. injection Ec as Ec.
  set (q := nth (Z.to_nat (frames cfg - 1)) (quantum s) 0) in *.
  assert (Hlastq : Py.last (quantum s) = Ok q).
  { rewrite (last_nth (quantum s) 0).
    - rewrite Lq. unfold q. do 2 f_equal. lia.
    - intros E. rewrite E in Lq. cbn in Lq. lia. }
  assert (Hlastc : Py.last (classical s) = Ok c).
  { rewrite (last_nth (classical s) 0).
    - rewrite Lc, <- Ec. do 2 f_equal. lia.
    - intros E. rewrite E in Lc. cbn in Lc. lia. }
  pose proof (exact_total_below cfg c Hvalid Hlo) as Hroot.
  assert (Hone : 1 <= nth_root (frames cfg)
                        (max_candidates cfg ^ (frames cfg - 1))).
  { rewrite <- (nth_root_one (frames cfg)) at 1 by lia.
    apply nth_root_mono; [lia|].
    pose proof (Z.pow_pos_nonneg (max_candidates cfg) (frames cfg - 1)
                  ltac:(lia) ltac:(lia)). lia. }
  assert (Hq1 : 1 <= q /\ q < c).
  { rewrite <- Hq. unfold spec_quantum. lia. }
  assert (HcM : c < max_candidates cfg).
  { apply Z.le_lt_trans with (1 := Hhi). unfold spec_classical.
    apply Z.div_lt_upper_bound; nia. }
  eexists. exists s. split; [|split; [exact Hrun|]].
  - unfold main, bind. rewrite Hrun.
    unfold final_metrics, bind, get, lift, ret.
    rewrite Hlastq, Hlastc. unfold Py.truediv.
    destruct (Z.eqb_spec c 0) as [|_]; [lia|].
    destruct (Z.eqb_spec q 0) as [|_]; [lia|].
    reflexivity.
  - cbn. repeat split; try assumption; lia.
Qed.



(** ** The rest of the script (lines 131-155) *)





(** ** The sound worker (lines 14-26) *)

Lemma os_system_calls_sounds (ok : string -> bool) (sys : string)
    (l : list event) :
  os_system_calls ok sys l = os_system_calls ok sys (filter is_sound l).
Proof.
  unfold os_system_calls. induction l as [|e l IH]; [reflexivity|].
  destruct e; cbn; rewrite ?IH; reflexivity.
Qed.

Section SoundFacts.

Variable wall : nat -> float.
Variable quantum_power : Z -> Z -> Z -> result Z.
Variable Mol : Type.
Variable MolFromSmiles : string -> option Mol.
Variable GetDrawingText : Mol -> string.
Variable cfg : config.

Lemma frame_sounded (i : Z) (s s' : state) (r : result unit) :
  sounded s ->
  frame wall quantum_power MolFromSmiles GetDrawingText cfg i s = (r, s') ->
  sounded_at_most s' /\ (r = Ok tt -> sounded s').
Proof.
  unfold sounded, sounded_at_most. intros Hs.
  assert (Hamo : filter is_sound (effects s) = []
                 \/ filter is_sound (effects s)
                    = [PlaySound "uploaded-sound.mp3"])
    by (rewrite Hs; destruct (quantum_triggered s); auto).
  unfold frame, breakthrough, play_sound, bind, lift, get, ret, emit,
    append_times, append_classical, append_quantum, set_quantum_triggered,
    modify, get_molecule_img_dark.
  cbn.
  destruct (time_of_frame cfg i) as [t|e]; cbn;
    [|intros H; injection H as <- <-; split; [exact Hamo|discriminate]].
  destruct (classical_count cfg i) as [c|e]; cbn;
    [|intros H; injection H as <- <-; split; [exact Hamo|discriminate]].
  destruct (quantum_count quantum_power cfg i) as [q|e]; cbn;
    [|intros H; injection H as <- <-; split; [exact Hamo|discriminate]].
  destruct (quantum_triggered s) eqn:Hflag; cbn.
  - intros H; injection H as <- <-; cbn.
    rewrite !filter_snoc; cbn. rewrite ?app_nil_r, ?Hflag. auto.
  - destruct (q >? c * 3); cbn.
    + destruct (show_molecule cfg); cbn.
      * destruct (MolFromSmiles (smiles cfg)); cbn;
          intros H; injection H as <- <-; cbn;
          rewrite !filter_snoc; cbn; rewrite ?app_nil_r, Hs; cbn;
          (split; [auto|intros; try discriminate; auto]).
      * intros H; injection H as <- <-; cbn.
        rewrite !filter_snoc; cbn. rewrite ?app_nil_r, Hs. cbn. auto.
    + intros H; injection H as <- <-; cbn.
      rewrite !filter_snoc; cbn. rewrite ?app_nil_r, ?Hflag. auto.
Qed.

Lemma loop_sounded (n : nat) (i : Z) (s s' : state) (r : result unit) :
  sounded s ->
  for_range i n (frame wall quantum_power MolFromSmiles GetDrawingText cfg) s
  = (r, s') ->
  sounded_at_most s' /\ (r = Ok tt -> sounded s').
Proof.
  revert i s. induction n as [|n IH]; intros i s Hinv.
  - cbn. unfold ret. intros H; injection H as <- <-.
    split; [|auto]. unfold sounded, sounded_at_most in *. rewrite Hinv.
    destruct (quantum_triggered s); auto.
  - cbn [for_range]. unfold bind.
    destruct (frame wall quantum_power MolFromSmiles GetDrawingText cfg i s)
      as [[[]|e] s1] eqn:Hf;
      destruct (frame_sounded _ _ _ _ Hinv Hf) as (Hamo & Hok).
    + intros H. exact (IH _ _ (Hok eq_refl) H).
    + intros H; injection H as <- <-. split; [assumption|discriminate].
Qed.

End SoundFacts.

(** X10.  Whatever a run of [n] frames did, its sound threads have passed
    at most one command to [os.system]: none when [playsound] played the
    file, and otherwise the player of the platform ([wmplayer] on Windows,
    [afplay] on Darwin, [aplay] elsewhere) on the file name in double
    quotes.  After [n] completed frames the command has been issued
    exactly when [playsound] fails and the breakthrough flag is set. *)
Theorem one_player_command_per_run
    (playsound_ok : string -> bool) (platform_system : string)
    (wall : nat -> float) (quantum_power : Z -> Z -> Z -> result Z)
    (Mol : Type) (MolFromSmiles : string -> option Mol)
    (GetDrawingText : Mol -> string) (cfg : config)
    (n : nat) (r : result unit) (s : state) :
  run_frames wall quantum_power MolFromSmiles GetDrawingText cfg n init
  = (r, s) ->
  let file := "uploaded-sound.mp3"%string in
  let quoted := (dquote ++ file ++ dquote)%string in
  let player :=
    (if String.eqb platform_system "Windows" then "start /min wmplayer "
     else if String.eqb platform_system "Darwin" then "afplay "
     else "aplay ")%string in
  let calls := os_system_calls playsound_ok platform_system (effects s) in
  (calls = [] \/ calls = [(player ++ quoted)%string])
  /\ (playsound_ok file = true -> calls = [])
  /\ (r = Ok tt ->
      calls = if quantum_triggered s && negb (playsound_ok file)
              then [(player ++ quoted)%string] else []).
Proof.
  intros Hrun file quoted player calls.
  assert (Hplay : _play playsound_ok platform_system file
                  = if playsound_ok file then [] else [(player ++ quoted)%string]).
  { unfold _play, player, quoted.
    destruct (playsound_ok file); [reflexivity|].
    destruct (String.eqb platform_system "Windows"); [reflexivity|].
    destruct (String.eqb platform_system "Darwin"); reflexivity. }
  assert (Hone : os_system_calls playsound_ok platform_system
                   [PlaySound file]
                 = _play playsound_ok platform_system file).
  { unfold os_system_calls. cbn. apply app_nil_r. }
  destruct (loop_sounded wall quantum_power Mol MolFromSmiles GetDrawingText
              cfg n 0 init s r eq_refl Hrun) as (Hamo & Hok).
  unfold calls. rewrite os_system_calls_sounds.
  split; [|split].
  - destruct Hamo as [-> | ->]; [left; reflexivity|].
    fold file. rewrite Hone, Hplay. destruct (playsound_ok file); auto.
  - intros Hfine. destruct Hamo as [-> | ->]; [reflexivity|].
    fold file. rewrite Hone, Hplay, Hfine. reflexivity.
  - intros ->. rewrite (Hok eq_refl).
    destruct (quantum_triggered s); [|reflexivity].
    fold file. rewrite Hone, Hplay. destruct (playsound_ok file); reflexivity.
Qed.

Lemma one_player_command_per_run_witness :
  os_system_calls (fun _ => false) "Linux"
    (effects (snd (sample_run cfg_100_5)))
  = [("aplay " ++ dquote ++ "uploaded-sound.mp3" ++ dquote)%string].
Proof.
  refine (proj2 (proj2 (one_player_command_per_run (fun _ => false) "Linux"
            ticking_wall libm_quantum_power string Toolkit.MolFromSmiles
            Toolkit.GetDrawingText cfg_100_5 25 (Ok tt)
            (snd (sample_run cfg_100_5)) _)) eq_refl).
  vm_compute. reflexivity.
Defined.

(** ** What the breakthrough shows (lines 116-121) *)

Section Announcement.

Variable wall : nat -> float.
Variable quantum_power : Z -> Z -> Z -> result Z.
Variable Mol : Type.
Variable MolFromSmiles : string -> option Mol.
Variable GetDrawingText : Mol -> string.
Variable cfg : config.

Lemma frame_announcement (i : Z) (s s' : state) :
  filter is_announcement (effects s)
  = (if quantum_triggered s
     then announcement MolFromSmiles GetDrawingText cfg else []) ->
  frame wall quantum_power MolFromSmiles GetDrawingText cfg i s = (Ok tt, s') ->
  filter is_announcement (effects s')
  = (if quantum_triggered s'
     then announcement MolFromSmiles GetDrawingText cfg else []).
Proof.
  unfold announcement. intros Hs.
  unfold frame, breakthrough, play_sound, bind, lift, get, ret, emit,
    append_times, append_classical, append_quantum, set_quantum_triggered,
    modify, get_molecule_img_dark.
  cbn.
  destruct (time_of_frame cfg i) as [t|e]; cbn; [|discriminate].
  destruct (classical_count cfg i) as [c|e]; cbn; [|discriminate].
  destruct (quantum_count quantum_power cfg i) as [q|e]; cbn; [|discriminate].
  destruct (quantum_triggered s) eqn:Hflag; cbn.
  - intros H; injection H as <-; cbn.
    rewrite !filter_snoc; cbn. rewrite ?app_nil_r, ?Hflag. exact Hs.
  - destruct (q >? c * 3); cbn.
    + destruct (show_molecule cfg); cbn.
      * destruct (MolFromSmiles (smiles cfg)); cbn; [|discriminate].
        intros H; injection H as <-; cbn.
        rewrite !filter_snoc; cbn. rewrite ?app_nil_r, Hs. reflexivity.
      * intros H; injection H as <-; cbn.
        rewrite !filter_snoc; cbn. rewrite ?app_nil_r, Hs. reflexivity.
    + intros H; injection H as <-; cbn.
      rewrite !filter_snoc; cbn. rewrite ?app_nil_r, ?Hflag. exact Hs.
Qed.

End Announcement.

(** X11.  After [n] completed frames the page has received, besides the
    charts and the pauses, nothing when the breakthrough flag is unset and
    otherwise exactly the announcement, once and in this order: the
    request to play "uploaded-sound.mp3", the red heading and, when the
    molecule is to be shown, the image that the drawer produced for the
    parsed descriptor, captioned "Scientific Name: " followed by the name
    that [get_scientific_name] gives for the descriptor. *)
Theorem breakthrough_announcement
    (wall : nat -> float) (quantum_power : Z -> Z -> Z -> result Z)
    (Mol : Type) (MolFromSmiles : string -> option Mol)
    (GetDrawingText : Mol -> string) (cfg : config)
    (n : nat) (s : state) :
  run_frames wall quantum_power MolFromSmiles GetDrawingText cfg n init
  = (Ok tt, s) ->
  filter is_announcement (effects s)
  = (if quantum_triggered s
     then announcement MolFromSmiles GetDrawingText cfg else [])
  /\ (quantum_triggered s = true -> show_molecule cfg = true ->
      exists mol, MolFromSmiles (smiles cfg) = Some mol).
Proof.
  revert s. induction n as [|n IH]; intros s Hrun.
  - cbn in Hrun. unfold ret in Hrun. injection Hrun as <-.
    split; [reflexivity|discriminate].
  - rewrite run_frames_S in Hrun.
    destruct (run_frames wall quantum_power MolFromSmiles GetDrawingText
                cfg n init) as [[[]|e] s1] eqn:Hn; [|discriminate].
    destruct (IH s1 eq_refl) as (Hs1 & Hmol1).
    split.
    + exact (frame_announcement wall quantum_power Mol MolFromSmiles
               GetDrawingText cfg (Z.of_nat n) s1 s Hs1 Hrun).
    + intros Hflag Hshow. revert Hrun Hflag.
      unfold frame, breakthrough, play_sound, bind, lift, get, ret, emit,
        append_times, append_classical, append_quantum,
        set_quantum_triggered, modify, get_molecule_img_dark.
      cbn.
      destruct (time_of_frame cfg (Z.of_nat n)) as [t|e]; cbn;
        [|discriminate].
      destruct (classical_count cfg (Z.of_nat n)) as [c|e]; cbn;
        [|discriminate].
      destruct (quantum_count quantum_power cfg (Z.of_nat n)) as [q|e]; cbn;
        [|discriminate].
      destruct (quantum_triggered s1) eqn:Hflag1; cbn.
      * intros _ _. exact (Hmol1 eq_refl Hshow).
      * destruct (q >? c * 3); cbn.
        -- rewrite Hshow. cbn.
           destruct (MolFromSmiles (smiles cfg)) as [mol|]; cbn;
             [eauto|discriminate].
        -- intros H; injection H as <-; cbn. rewrite ?Hflag1. discriminate.
Qed.

Lemma breakthrough_announcement_witness :
  filter is_announcement (effects (snd (sample_run cfg_100_5)))
  = (if quantum_triggered (snd (sample_run cfg_100_5))
     then announcement Toolkit.MolFromSmiles Toolkit.GetDrawingText cfg_100_5
     else []).
Proof.
  refine (proj1 (breakthrough_announcement ticking_wall libm_quantum_power
            string Toolkit.MolFromSmiles Toolkit.GetDrawingText cfg_100_5 25
            (snd (sample_run cfg_100_5)) _)).
  vm_compute. reflexivity.
Defined.
